(** * decky-romm-sync: the plugin front end, embedded in Rocq

    The TypeScript sources are React components whose event handlers are
    [async] functions: they update component state with [setX] calls and
    [await] calls into the Python backend, each of which either resolves
    with a value or rejects (throws at the [await]).  The embedding keeps
    that shape:

    - a handler is a [proc]: a sequence of state updates and awaited
      backend requests, the continuation of an [await] receiving the
      settled promise (this is where [try]/[catch] lives);
    - the backend is whatever answers the requests: a state [B] and a
      function [respond]; theorems quantify over every backend;
    - [run] executes a handler to completion against a backend and returns
      the final component state, the final backend state and the list of
      requests that were issued, in order.

    JavaScript numbers that hold identifiers and counts are [Z]; strings
    are [string]; arrays are [list]. *)

From Stdlib Require Import List String ZArith Bool Lia DecimalString.
From Stdlib Require DecimalPos DecimalZ.
Import ListNotations.
Open Scope string_scope.
Open Scope Z_scope.

(* ================================================================== *)
(** * Part I: definitions                                              *)
(* ================================================================== *)

(** ** Promises and async handlers *)

(** The outcome of an awaited promise. *)
Inductive settled (A : Type) : Type :=
| Fulfilled (a : A)
| Rejected.
Arguments Fulfilled {A} a.
Arguments Rejected {A}.

Section Async.
Variable Req : Type.
Variable Resp : Req -> Type.
Variable St : Type.

(** The body of an async handler over component state [St]. *)
Inductive proc : Type :=
| Done
| Update (f : St -> St) (k : proc)
| Await (c : Req) (k : settled (Resp c) -> proc).

(** [p ;; q]: statement sequencing. *)
Fixpoint seq (p q : proc) : proc :=
  match p with
  | Done => q
  | Update f k => Update f (seq k q)
  | Await c k => Await c (fun r => seq (k r) q)
  end.

Variable B : Type.
Variable respond : forall c : Req, B -> settled (Resp c) * B.

(** What a completed handler leaves behind. *)
Record outcome : Type := {
  ui : St;
  backend : B;
  requests : list Req
}.

Fixpoint run (p : proc) (st : St) (b : B) : outcome :=
  match p with
  | Done => {| ui := st; backend := b; requests := [] |}
  | Update f k => run k (f st) b
  | Await c k =>
      let (r, b') := respond c b in
      let o := run (k r) st b' in
      {| ui := ui o; backend := backend o; requests := c :: requests o |}
  end.

End Async.

Arguments proc {Req} Resp St.
Arguments outcome Req St B : clear implicits.
Arguments Done {Req Resp St}.
Arguments Update {Req Resp St} f k.
Arguments Await {Req Resp St} c k.
Arguments seq {Req Resp St} p q.
Arguments run {Req Resp St B} respond p st b.
Arguments ui {Req St B} o.
Arguments backend {Req St B} o.
Arguments requests {Req St B} o.

(** JavaScript's number-to-string conversion inside a template literal,
    for the integers used as identifiers. *)
Definition String_of_number (n : Z) : string :=
  NilZero.string_of_int (Z.to_int n).

(** ** types.ts, as the components use it *)

(** "upload" | "download" *)
Inductive Transfer : Type := upload | download.

(** [ConflictMode] is a string at run time. *)
Definition ConflictMode : Type := string.

Module SaveSyncSettingsType.
Record t : Type := {
  sync_before_launch : bool;
  sync_after_exit : bool;
  conflict_mode : ConflictMode
}.

(** [Partial<SaveSyncSettingsType>] *)
Record partial : Type := {
  sync_before_launch' : option bool;
  sync_after_exit' : option bool;
  conflict_mode' : option ConflictMode
}.

(** [{ ...settings, ...partial }] *)
Definition spread (settings : t) (p : partial) : t :=
  {| sync_before_launch :=
       match sync_before_launch' p with
       | Some v => v | None => sync_before_launch settings end;
     sync_after_exit :=
       match sync_after_exit' p with
       | Some v => v | None => sync_after_exit settings end;
     conflict_mode :=
       match conflict_mode' p with
       | Some v => v | None => conflict_mode settings end |}.
End SaveSyncSettingsType.

Module PendingConflict.
Record t : Type := {
  rom_id : Z;
  filename : string;
  created_at : string
}.
End PendingConflict.

Module OfflineQueueItem.
Record t : Type := {
  rom_id : Z;
  filename : string;
  operation : Transfer;
  error : string;
  failed_at : string;
  attempt_count : Z
}.
End OfflineQueueItem.

(** Modelled from the spec: the value [syncAllSaves] resolves with.  Its
    declaration (api/backend) is not among the sources; section 4.4 lists
    the total of items considered, the number of outstanding conflicts and
    a message.  The component reads [message] and [conflicts] only. *)
Module SyncAllResult.
Record t : Type := {
  total : Z;
  conflicts : Z;
  message : string
}.
End SyncAllResult.

(** ** components/SaveSyncSettings.tsx *)

Module SaveSyncSettings.

(** The four entries of the dropdown, [data] and [label]. *)
Definition conflictModeOptions : list (ConflictMode * string) :=
  [ ("newest_wins", "Newest Wins (Default)");
    ("always_upload", "Always Upload");
    ("always_download", "Always Download");
    ("ask_me", "Ask Me") ].

(** The backend callables imported from api/backend. *)
Inductive request : Type :=
| getSaveSyncSettings
| updateSaveSyncSettings (s : SaveSyncSettingsType.t)
| syncAllSaves
| getPendingConflicts
| resolveConflict (rom_id : Z) (filename : string) (resolution : Transfer)
| getOfflineQueue
| retryFailedSync (rom_id : Z) (filename : string)
| clearOfflineQueue.

(** What each callable resolves with.  [getPendingConflicts] and
    [getOfflineQueue] resolve with an object holding one list
    ([result.conflicts], [result.queue]); [retryFailedSync] with an object
    holding [success]. *)
Definition response (c : request) : Type :=
  match c with
  | getSaveSyncSettings => SaveSyncSettingsType.t
  | updateSaveSyncSettings _ => SaveSyncSettingsType.t
  | syncAllSaves => SyncAllResult.t
  | getPendingConflicts => list PendingConflict.t
  | resolveConflict _ _ _ => unit
  | getOfflineQueue => list OfflineQueueItem.t
  | retryFailedSync _ _ => bool
  | clearOfflineQueue => unit
  end.

(** The [useState] cells of the component. *)
Record State : Type := {
  settings : option SaveSyncSettingsType.t;
  conflicts : list PendingConflict.t;
  failedOps : list OfflineQueueItem.t;
  syncing : bool;
  syncStatus : string;
  resolving : option string;
  retrying : option string
}.

Definition initialState : State :=
  {| settings := None; conflicts := []; failedOps := [];
     syncing := false; syncStatus := "";
     resolving := None; retrying := None |}.

Definition setSettings (v : option SaveSyncSettingsType.t) (s : State) : State :=
  {| settings := v; conflicts := conflicts s; failedOps := failedOps s;
     syncing := syncing s; syncStatus := syncStatus s;
     resolving := resolving s; retrying := retrying s |}.

(** [setConflicts] and [setFailedOps] are also called with an updater
    function of the previous value. *)
Definition setConflicts
  (f : list PendingConflict.t -> list PendingConflict.t) (s : State) : State :=
  {| settings := settings s; conflicts := f (conflicts s);
     failedOps := failedOps s;
     syncing := syncing s; syncStatus := syncStatus s;
     resolving := resolving s; retrying := retrying s |}.

Definition setFailedOps
  (f : list OfflineQueueItem.t -> list OfflineQueueItem.t) (s : State) : State :=
  {| settings := settings s; conflicts := conflicts s;
     failedOps := f (failedOps s);
     syncing := syncing s; syncStatus := syncStatus s;
     resolving := resolving s; retrying := retrying s |}.

Definition setSyncing (v : bool) (s : State) : State :=
  {| settings := settings s; conflicts := conflicts s; failedOps := failedOps s;
     syncing := v; syncStatus := syncStatus s;
     resolving := resolving s; retrying := retrying s |}.

Definition setSyncStatus (v : string) (s : State) : State :=
  {| settings := settings s; conflicts := conflicts s; failedOps := failedOps s;
     syncing := syncing s; syncStatus := v;
     resolving := resolving s; retrying := retrying s |}.

Definition setResolving (v : option string) (s : State) : State :=
  {| settings := settings s; conflicts := conflicts s; failedOps := failedOps s;
     syncing := syncing s; syncStatus := syncStatus s;
     resolving := v; retrying := retrying s |}.

Definition setRetrying (v : option string) (s : State) : State :=
  {| settings := settings s; conflicts := conflicts s; failedOps := failedOps s;
     syncing := syncing s; syncStatus := syncStatus s;
     resolving := resolving s; retrying := v |}.

Definition handler : Type := proc response State.

Notation "p ;; q" := (seq p q) (at level 61, right associativity).

(** [try { const result = await getPendingConflicts();
          setConflicts(result.conflicts); } catch (e) { log }] *)
Definition loadConflicts : handler :=
  Await getPendingConflicts (fun r =>
    match r with
    | Fulfilled result => Update (setConflicts (fun _ => result)) Done
    | Rejected => Done
    end).

Definition loadFailedOps : handler :=
  Await getOfflineQueue (fun r =>
    match r with
    | Fulfilled result => Update (setFailedOps (fun _ => result)) Done
    | Rejected => Done
    end).

(** The mount effect: load the settings, the conflicts and the queue.  The
    three loads are started together; here they run one after the other. *)
Definition onMount : handler :=
  Await getSaveSyncSettings (fun r =>
    match r with
    | Fulfilled s => Update (setSettings (Some s)) Done
    | Rejected => Done
    end) ;;
  loadConflicts ;;
  loadFailedOps.

(** [settings] is the value captured by the render that created the
    callback. *)
Definition handleSettingChange
  (settings : option SaveSyncSettingsType.t)
  (partial : SaveSyncSettingsType.partial) : handler :=
  match settings with
  | None => Done
  | Some settings =>
      let updated := SaveSyncSettingsType.spread settings partial in
      Update (setSettings (Some updated))
        (Await (updateSaveSyncSettings updated) (fun _ => Done))
  end.

Definition handleSyncAll : handler :=
  Update (setSyncing true)
  (Update (setSyncStatus "")
  (Await syncAllSaves (fun r =>
     match r with
     | Fulfilled result =>
         Update (setSyncStatus (SyncAllResult.message result))
           ((if SyncAllResult.conflicts result >? 0
             then loadConflicts else Done) ;;
            loadFailedOps)
     | Rejected => Update (setSyncStatus "Sync failed") Done
     end))) ;;
  Update (setSyncing false) Done.

(** The key of a pending conflict and of a queue entry. *)
Definition conflictKey (c : PendingConflict.t) : Z * string :=
  (PendingConflict.rom_id c, PendingConflict.filename c).

Definition itemKey (f : OfflineQueueItem.t) : Z * string :=
  (OfflineQueueItem.rom_id f, OfflineQueueItem.filename f).

(** [c.rom_id === conflict.rom_id && c.filename === conflict.filename] *)
Definition sameConflict (conflict c : PendingConflict.t) : bool :=
  (PendingConflict.rom_id c =? PendingConflict.rom_id conflict)
  && String.eqb (PendingConflict.filename c) (PendingConflict.filename conflict).

Definition handleResolve
  (conflict : PendingConflict.t) (resolution : Transfer) : handler :=
  let key := String_of_number (PendingConflict.rom_id conflict)
             ++ ":" ++ PendingConflict.filename conflict in
  Update (setResolving (Some key))
  (Await (resolveConflict (PendingConflict.rom_id conflict)
                          (PendingConflict.filename conflict) resolution)
     (fun r =>
        match r with
        | Fulfilled _ =>
            Update (setConflicts
                      (fun prev => filter (fun c => negb (sameConflict conflict c)) prev))
                   Done
        | Rejected => Done
        end)) ;;
  Update (setResolving None) Done.

Definition sameItem (item f : OfflineQueueItem.t) : bool :=
  (OfflineQueueItem.rom_id f =? OfflineQueueItem.rom_id item)
  && String.eqb (OfflineQueueItem.filename f) (OfflineQueueItem.filename item).

Definition handleRetry (item : OfflineQueueItem.t) : handler :=
  let key := String_of_number (OfflineQueueItem.rom_id item)
             ++ ":" ++ OfflineQueueItem.filename item in
  Update (setRetrying (Some key))
  (Await (retryFailedSync (OfflineQueueItem.rom_id item)
                          (OfflineQueueItem.filename item))
     (fun r : settled bool =>
        match r with
        | Fulfilled success =>
            if success
            then Update (setFailedOps
                           (fun prev => filter (fun f => negb (sameItem item f)) prev))
                        Done
            else Done
        | Rejected => Done
        end)) ;;
  Update (setRetrying None) Done.

Definition handleClearQueue : handler :=
  Await clearOfflineQueue (fun r =>
    match r with
    | Fulfilled _ => Update (setFailedOps (fun _ => [])) Done
    | Rejected => Done
    end).

(** The requests that make the backend move a save file: a resolve, a
    retry, a full pass. *)
Definition attemptsTransfer (c : request) : bool :=
  match c with
  | syncAllSaves | resolveConflict _ _ _ | retryFailedSync _ _ => true
  | _ => false
  end.

End SaveSyncSettings.

(** ** The settings store behind the settings panel *)

Module SettingsStore.

(** The four policies of the data model. *)
Inductive Mode : Type := newest_wins | always_upload | always_download | ask_me.

Definition parseMode (m : ConflictMode) : option Mode :=
  if String.eqb m "newest_wins" then Some newest_wins
  else if String.eqb m "always_upload" then Some always_upload
  else if String.eqb m "always_download" then Some always_download
  else if String.eqb m "ask_me" then Some ask_me
  else None.

Definition recognized (m : ConflictMode) : bool :=
  match parseMode m with Some _ => true | None => false end.

(** The four defined values, as strings. *)
Definition definedModes : list ConflictMode :=
  ["newest_wins"; "always_upload"; "always_download"; "ask_me"].

(** Modelled from the spec: the Sync Settings Store of section 4.1, which
    lives in the backend and is not among the sources.  [get] returns the
    stored record; [update] persists the submitted record and returns it,
    and fails with a validation error, changing nothing, when
    [conflict_mode] is not a recognized value. *)
Definition get (store : SaveSyncSettingsType.t) : SaveSyncSettingsType.t := store.

Definition update (submitted store : SaveSyncSettingsType.t)
  : settled SaveSyncSettingsType.t * SaveSyncSettingsType.t :=
  if recognized (SaveSyncSettingsType.conflict_mode submitted)
  then (Fulfilled submitted, submitted)
  else (Rejected, store).

End SettingsStore.

(** The settings panel running against a backend whose settings calls are
    answered by [SettingsStore] and whose other calls are answered by an
    arbitrary collaborator [others] with its own state. *)
Module SettingsPanel.
Import SaveSyncSettings.

Section Backend.
Variable Others : Type.
Variable others : forall c : request, Others -> settled (response c) * Others.

Definition B : Type := (SaveSyncSettingsType.t * Others)%type.

Definition respond (c : request) (b : B) : settled (response c) * B :=
  match c return settled (response c) * B with
  | getSaveSyncSettings => (Fulfilled (SettingsStore.get (fst b)), b)
  | updateSaveSyncSettings s =>
      let (r, store') := SettingsStore.update s (fst b) in (r, (store', snd b))
  | c' => let (r, o') := others c' (snd b) in (r, (fst b, o'))
  end.

(** What the user can do on the panel.  The dropdown hands back one of
    the entries of [conflictModeOptions]; the conflict and queue rows hand
    back the row they were rendered from. *)
Inductive event : Type :=
| Mount
| ToggleSyncBeforeLaunch (value : bool)
| ToggleSyncAfterExit (value : bool)
| SelectConflictMode (index : nat)
| ClickSyncAll
| ClickResolve (c : PendingConflict.t) (resolution : Transfer)
| ClickRetry (item : OfflineQueueItem.t)
| ClickClearQueue.

Definition onEvent (e : event) (st : State) : handler :=
  match e with
  | Mount => onMount
  | ToggleSyncBeforeLaunch value =>
      handleSettingChange (settings st)
        {| SaveSyncSettingsType.sync_before_launch' := Some value;
           SaveSyncSettingsType.sync_after_exit' := None;
           SaveSyncSettingsType.conflict_mode' := None |}
  | ToggleSyncAfterExit value =>
      handleSettingChange (settings st)
        {| SaveSyncSettingsType.sync_before_launch' := None;
           SaveSyncSettingsType.sync_after_exit' := Some value;
           SaveSyncSettingsType.conflict_mode' := None |}
  | SelectConflictMode index =>
      match nth_error conflictModeOptions index with
      | Some option =>
          handleSettingChange (settings st)
            {| SaveSyncSettingsType.sync_before_launch' := None;
               SaveSyncSettingsType.sync_after_exit' := None;
               SaveSyncSettingsType.conflict_mode' := Some (fst option) |}
      | None => Done
      end
  | ClickSyncAll => handleSyncAll
  | ClickResolve c resolution => handleResolve c resolution
  | ClickRetry item => handleRetry item
  | ClickClearQueue => handleClearQueue
  end.

(** A session: the events one after the other, each handler run to
    completion; the requests of the whole session are collected. *)
Fixpoint session (es : list event) (st : State) (b : B)
  : outcome request State B :=
  match es with
  | [] => {| ui := st; backend := b; requests := [] |}
  | e :: es' =>
      let o := run respond (onEvent e st) st b in
      let o' := session es' (ui o) (backend o) in
      {| ui := ui o'; backend := backend o';
         requests := requests o ++ requests o' |}
  end.

End Backend.

Arguments respond {Others} others c b.
Arguments session {Others} others es st b.

(** The stored mode is recognized, and so is the mode the panel holds. *)
Definition modeInv {Others : Type} (st : State) (b : B Others) : Prop :=
  SettingsStore.recognized (SaveSyncSettingsType.conflict_mode (fst b)) = true /\
  forall s, settings st = Some s ->
            SettingsStore.recognized (SaveSyncSettingsType.conflict_mode s) = true.

(** Every settings update among the requests carries a recognized mode. *)
Definition updatesRecognized (rs : list request) : Prop :=
  forall s, List.In (updateSaveSyncSettings s) rs ->
            SettingsStore.recognized (SaveSyncSettingsType.conflict_mode s) = true.

End SettingsPanel.

(** ** utils/syncProgress and the listener of index.tsx *)

Module SyncProgress.
Record t : Type := {
  running : bool;
  phase : option string;
  current : option Z;
  total : option Z;
  message : option string
}.
End SyncProgress.

Module syncProgress.

(** Modelled from the spec: the module-level progress store of
    utils/syncProgress, which is not among the sources.  It holds one
    [SyncProgress] value; [setSyncProgress] overwrites it with its
    argument (section 5: writes are whole-value replacements). *)
Definition store : Type := SyncProgress.t.

Definition setSyncProgress (progress : SyncProgress.t) (_ : store) : store :=
  progress.

Definition getSyncProgress (s : store) : SyncProgress.t := s.

End syncProgress.

Module index.

(** [(progress: SyncProgress) => { setSyncProgress(progress); }] *)
Definition syncProgressListener (progress : SyncProgress.t)
  (s : syncProgress.store) : syncProgress.store :=
  syncProgress.setSyncProgress progress s.

(** The [sync_progress] events of a run, delivered in order. *)
Definition deliver (events : list SyncProgress.t) (s : syncProgress.store)
  : syncProgress.store :=
  fold_left (fun acc progress => syncProgressListener progress acc) events s.

End index.

(** ** The conflict resolver *)

Module ConflictResolver.
Import SettingsStore.

Inductive Resolution : Type :=
| Act (action : Transfer)
| AskUser.

(** Modelled from the spec: step 6 of the classification of section 4.2,
    the resolution of a save whose two copies both changed; the backend
    that implements it is not among the sources.  Both modification times
    are present in that case; they are integers here, the rule uses their
    order only. *)
Definition resolve (mode : Mode) (local_mtime remote_mtime : Z) : Resolution :=
  match mode with
  | newest_wins =>
      if remote_mtime <? local_mtime then Act upload else Act download
  | always_upload => Act upload
  | always_download => Act download
  | ask_me => AskUser
  end.

End ConflictResolver.

(** ** components/PlatformSync.tsx *)

Module PlatformSyncSetting.
(** The fields the component reads. *)
Record t : Type := {
  id : Z;
  name : string;
  rom_count : Z;
  sync_enabled : bool
}.

(** [{ ...p, sync_enabled: v }] *)
Definition with_sync_enabled (p : t) (v : bool) : t :=
  {| id := id p; name := name p; rom_count := rom_count p; sync_enabled := v |}.

(** [{ ...p }] *)
Definition copy (p : t) : t :=
  {| id := id p; name := name p; rom_count := rom_count p;
     sync_enabled := sync_enabled p |}.
End PlatformSyncSetting.

Module PlatformSync.
Import PlatformSyncSetting.

Inductive request : Type :=
| getPlatforms
| savePlatformSync (id : Z) (enabled : bool)
| setAllPlatformsSync (enabled : bool).

(** [getPlatforms] resolves with [{ success, platforms }]; what the two
    savers resolve with is not read. *)
Definition response (c : request) : Type :=
  match c with
  | getPlatforms => (bool * list PlatformSyncSetting.t)%type
  | savePlatformSync _ _ => unit
  | setAllPlatformsSync _ => unit
  end.

Record State : Type := {
  platforms : list PlatformSyncSetting.t;
  loading : bool;
  error : bool
}.

Definition initialState : State :=
  {| platforms := []; loading := true; error := false |}.

Definition setPlatforms
  (f : list PlatformSyncSetting.t -> list PlatformSyncSetting.t) (s : State)
  : State :=
  {| platforms := f (platforms s); loading := loading s; error := error s |}.

Definition setLoading (v : bool) (s : State) : State :=
  {| platforms := platforms s; loading := v; error := error s |}.

Definition setError (v : bool) (s : State) : State :=
  {| platforms := platforms s; loading := loading s; error := v |}.

Definition handler : Type := proc response State.

Definition onMount : handler :=
  Await getPlatforms (fun r : settled (bool * list PlatformSyncSetting.t) =>
    match r with
    | Fulfilled (success, result_platforms) =>
        if success
        then Update (setPlatforms (fun _ => result_platforms))
               (Update (setLoading false) Done)
        else Update (setError true) (Update (setLoading false) Done)
    | Rejected => Update (setError true) (Update (setLoading false) Done)
    end).

(** Called by the toggle of a row, [onChange={(value) =>
    handleToggle(platform.id, value)}], the toggle being rendered with
    [checked={platform.sync_enabled}]. *)
Definition handleToggle (id : Z) (enabled : bool) : handler :=
  Update (setPlatforms (fun prev =>
            map (fun p => if PlatformSyncSetting.id p =? id
                          then with_sync_enabled p enabled else p) prev))
  (Await (savePlatformSync id enabled) (fun r =>
     match r with
     | Fulfilled _ => Done
     | Rejected =>
         Update (setPlatforms (fun prev =>
                   map (fun p => if PlatformSyncSetting.id p =? id
                                 then with_sync_enabled p (negb enabled)
                                 else p) prev))
                Done
     end)).

(** [platforms] is the list captured by the render that created the
    callback. *)
Definition handleSetAll (platforms : list PlatformSyncSetting.t)
  (enabled : bool) : handler :=
  let previous := map copy platforms in
  Update (setPlatforms (fun prev =>
            map (fun p => with_sync_enabled p enabled) prev))
  (Await (setAllPlatformsSync enabled) (fun r =>
     match r with
     | Fulfilled _ => Done
     | Rejected => Update (setPlatforms (fun _ => previous)) Done
     end)).

(** An entry before a toggle and after the toggle was written and then
    written back: entries with another id are the same, entries with the
    toggled id carry the negation of the requested value. *)
Definition toggledBack (id0 : Z) (enabled : bool)
  (p p' : PlatformSyncSetting.t) : Prop :=
  (PlatformSyncSetting.id p <> id0 -> p' = p) /\
  (PlatformSyncSetting.id p = id0 -> p' = with_sync_enabled p (negb enabled)).

End PlatformSync.

(** ** Steam collection management (the collections utility) *)

Module SteamCollection.
(** [AsDragDropCollection] is a method and carries no data; [visibleApps]
    is a set of app ids, kept as the list last written to it. *)
Record t : Type := {
  bIsDynamic : bool;
  displayName : string;
  id : string;
  visibleApps : list Z
}.

Definition with_visibleApps (c : t) (apps : list Z) : t :=
  {| bIsDynamic := bIsDynamic c; displayName := displayName c; id := id c;
     visibleApps := apps |}.
End SteamCollection.

Module Collections.
Import SteamCollection.

(** The two mutators of Steam's [collectionStore] that the module calls. *)
Inductive call : Type :=
| CreateCollection (name : string) (apps : list Z)
| SetAppsInCollection (id : string) (apps : list Z).

(** A call as it went: [returned] is false when it threw. *)
Record logged : Type := {
  what : call;
  returned : bool
}.

Definition isFulfilled {A : Type} (r : settled A) : bool :=
  match r with Fulfilled _ => true | Rejected => false end.

Section CollectionStore.
(** Steam's [collectionStore] is declared, not defined: its state is a
    type [store], [userCollections] reads the collections, [perform]
    carries out a mutator, which returns or throws and leaves a store. *)
Variable store : Type.
Variable userCollections : store -> list SteamCollection.t.
Variable perform : call -> store -> settled unit * store.

Definition existingCollection (collectionName : string) (st : store)
  : option SteamCollection.t :=
  find (fun c => String.eqb (displayName c) collectionName) (userCollections st).

(** The one call made for a platform: update when the collection is
    there, create otherwise. *)
Definition callFor (platformName : string) (appIds : list Z) (st : store) : call :=
  let collectionName := "RomM: " ++ platformName in
  match existingCollection collectionName st with
  | Some existing => SetAppsInCollection (id existing) appIds
  | None => CreateCollection collectionName appIds
  end.

(** The body of the [for ... of Object.entries(platformAppIds)] loop; each
    call sits in its own [try]/[catch], which logs and goes on. *)
Fixpoint forEachPlatform (entries : list (string * list Z)) (st : store)
  : store * list logged :=
  match entries with
  | [] => (st, [])
  | (platformName, appIds) :: rest =>
      let c := callFor platformName appIds st in
      let (r, st') := perform c st in
      let (st'', log) := forEachPlatform rest st' in
      (st'', {| what := c; returned := isFulfilled r |} :: log)
  end.

(** [collectionStore] is [None] when [typeof collectionStore] is
    "undefined"; [platformAppIds] is given as its [Object.entries]. *)
Definition createOrUpdateCollections (collectionStore : option store)
  (platformAppIds : list (string * list Z)) : option store * list logged :=
  match collectionStore with
  | None => (None, [])
  | Some st =>
      let (st', log) := forEachPlatform platformAppIds st in (Some st', log)
  end.

Definition clearPlatformCollection (collectionStore : option store)
  (platformName : string) : option store * list logged :=
  match collectionStore with
  | None => (None, [])
  | Some st =>
      let collectionName := "RomM: " ++ platformName in
      match existingCollection collectionName st with
      | Some existing =>
          let c := SetAppsInCollection (id existing) [] in
          let (r, st') := perform c st in
          (Some st', [{| what := c; returned := isFulfilled r |}])
      | None => (Some st, [])
      end
  end.

(** The [for (const c of rommCollections)] loop: the calls are not guarded
    one by one, the first that throws ends the loop (outer [catch]). *)
Fixpoint clearEach (rommCollections : list SteamCollection.t) (st : store)
  : store * list logged :=
  match rommCollections with
  | [] => (st, [])
  | c :: rest =>
      let k := SetAppsInCollection (id c) [] in
      match perform k st with
      | (Fulfilled _, st') =>
          let (st'', log) := clearEach rest st' in
          (st'', {| what := k; returned := true |} :: log)
      | (Rejected, st') => (st', [{| what := k; returned := false |}])
      end
  end.

Definition isRomM (c : SteamCollection.t) : bool :=
  String.prefix "RomM: " (displayName c).

Definition clearAllRomMCollections (collectionStore : option store)
  : option store * list logged :=
  match collectionStore with
  | None => (None, [])
  | Some st =>
      let rommCollections := filter isRomM (userCollections st) in
      let (st', log) := clearEach rommCollections st in (Some st', log)
  end.

End CollectionStore.

Arguments existingCollection {store} userCollections collectionName st.
Arguments callFor {store} userCollections platformName appIds st.
Arguments forEachPlatform {store} userCollections perform entries st.
Arguments createOrUpdateCollections {store} userCollections perform
  collectionStore platformAppIds.
Arguments clearPlatformCollection {store} userCollections perform
  collectionStore platformName.
Arguments clearEach {store} perform rommCollections st.
Arguments clearAllRomMCollections {store} userCollections perform
  collectionStore.

(** What [SetAppsInCollection id apps] does to the collections when it
    returns: the collection with that id shows [apps]. *)
Definition setApps (id0 : string) (apps : list Z)
  (cs : list SteamCollection.t) : list SteamCollection.t :=
  map (fun c => if String.eqb (id c) id0 then with_visibleApps c apps else c) cs.

(** The same collections, those named "RomM: ..." emptied. *)
Definition cleared (cs : list SteamCollection.t) : list SteamCollection.t :=
  map (fun c => if isRomM c then with_visibleApps c [] else c) cs.

End Collections.

(** ** Concrete backends, states and stores used by the examples *)

Module Fixtures.
Import SaveSyncSettings.

Definition conflict7 : PendingConflict.t :=
  {| PendingConflict.rom_id := 7; PendingConflict.filename := "save.dat";
     PendingConflict.created_at := "2024-05-01T10:00:00Z" |}.

Definition conflict9 : PendingConflict.t :=
  {| PendingConflict.rom_id := 9; PendingConflict.filename := "save.dat";
     PendingConflict.created_at := "2024-05-01T10:05:00Z" |}.

Definition item7 : OfflineQueueItem.t :=
  {| OfflineQueueItem.rom_id := 7; OfflineQueueItem.filename := "slot1.srm";
     OfflineQueueItem.operation := upload;
     OfflineQueueItem.error := "timeout";
     OfflineQueueItem.failed_at := "2024-05-01T10:00:00Z";
     OfflineQueueItem.attempt_count := 1 |}.

Definition item8 : OfflineQueueItem.t :=
  {| OfflineQueueItem.rom_id := 8; OfflineQueueItem.filename := "slot1.srm";
     OfflineQueueItem.operation := download;
     OfflineQueueItem.error := "503";
     OfflineQueueItem.failed_at := "2024-05-01T10:01:00Z";
     OfflineQueueItem.attempt_count := 2 |}.

Definition defaults : SaveSyncSettingsType.t :=
  {| SaveSyncSettingsType.sync_before_launch := true;
     SaveSyncSettingsType.sync_after_exit := true;
     SaveSyncSettingsType.conflict_mode := "newest_wins" |}.

(** A panel showing two conflicts and two failed operations. *)
Definition busyState : State :=
  {| settings := Some defaults;
     conflicts := [conflict7; conflict9];
     failedOps := [item7; item8];
     syncing := false; syncStatus := "";
     resolving := None; retrying := None |}.

(** A backend without state that fulfils every request; its full pass
    reports three items and no outstanding conflict. *)
Definition cleanPass : SyncAllResult.t :=
  {| SyncAllResult.total := 3; SyncAllResult.conflicts := 0;
     SyncAllResult.message := "Synced 3 saves" |}.

Definition agreeable (c : request) (b : unit) : settled (response c) * unit :=
  (match c return settled (response c) with
   | getSaveSyncSettings => Fulfilled defaults
   | updateSaveSyncSettings s => Fulfilled s
   | syncAllSaves => Fulfilled cleanPass
   | getPendingConflicts => Fulfilled []
   | resolveConflict _ _ _ => Fulfilled tt
   | getOfflineQueue => Fulfilled []
   | retryFailedSync _ _ => Fulfilled true
   | clearOfflineQueue => Fulfilled tt
   end, b).

(** A backend that is unreachable: every request rejects. *)
Definition unreachable (c : request) (b : unit) : settled (response c) * unit :=
  (Rejected, b).

(** A full pass that leaves one conflict open. *)
Definition conflictedPass : SyncAllResult.t :=
  {| SyncAllResult.total := 3; SyncAllResult.conflicts := 1;
     SyncAllResult.message := "Synced 2 saves, 1 conflict" |}.

Definition contested (c : request) (b : unit) : settled (response c) * unit :=
  (match c return settled (response c) with
   | syncAllSaves => Fulfilled conflictedPass
   | getPendingConflicts => Fulfilled [conflict9]
   | c' => fst (agreeable c' b)
   end, b).

(** The platforms panel: three platforms, and a backend out of reach. *)
Definition somePlatforms : list PlatformSyncSetting.t :=
  [ {| PlatformSyncSetting.id := 1; PlatformSyncSetting.name := "Game Boy";
       PlatformSyncSetting.rom_count := 12;
       PlatformSyncSetting.sync_enabled := true |};
    {| PlatformSyncSetting.id := 2; PlatformSyncSetting.name := "SNES";
       PlatformSyncSetting.rom_count := 30;
       PlatformSyncSetting.sync_enabled := false |};
    {| PlatformSyncSetting.id := 3; PlatformSyncSetting.name := "PlayStation";
       PlatformSyncSetting.rom_count := 4;
       PlatformSyncSetting.sync_enabled := true |} ].

Definition platformsShown : PlatformSync.State :=
  {| PlatformSync.platforms := somePlatforms;
     PlatformSync.loading := false; PlatformSync.error := false |}.

Definition platformsUnreachable (c : PlatformSync.request) (b : unit)
  : settled (PlatformSync.response c) * unit :=
  (Rejected, b).

(** A collection store kept as the list of its collections, whose
    mutators always return: [SetAppsInCollection] rewrites the apps of the
    collection with the given id, [CreateCollection] appends a collection. *)
Definition listStore : Type := list SteamCollection.t.

Definition listPerform (c : Collections.call) (cs : listStore)
  : settled unit * listStore :=
  match c with
  | Collections.SetAppsInCollection id0 apps =>
      (Fulfilled tt, Collections.setApps id0 apps cs)
  | Collections.CreateCollection name apps =>
      (Fulfilled tt,
       cs ++ [{| SteamCollection.bIsDynamic := false;
                 SteamCollection.displayName := name;
                 SteamCollection.id := "uc-" ++ name;
                 SteamCollection.visibleApps := apps |}])%list
  end.

(** A store every mutator of which throws and changes nothing. *)
Definition brokenPerform (c : Collections.call) (cs : listStore)
  : settled unit * listStore :=
  (Rejected, cs).

(** A store that throws when asked to write the collection [bad] and
    behaves like [listPerform] otherwise. *)
Definition failsOn (bad : string) (c : Collections.call) (cs : listStore)
  : settled unit * listStore :=
  match c with
  | Collections.SetAppsInCollection id0 _ =>
      if String.eqb id0 bad then (Rejected, cs) else listPerform c cs
  | _ => listPerform c cs
  end.

Definition library : listStore :=
  [ {| SteamCollection.bIsDynamic := false;
       SteamCollection.displayName := "Favorites";
       SteamCollection.id := "favorite";
       SteamCollection.visibleApps := [10; 20] |};
    {| SteamCollection.bIsDynamic := false;
       SteamCollection.displayName := "RomM: SNES";
       SteamCollection.id := "uc-snes";
       SteamCollection.visibleApps := [101; 102; 103] |};
    {| SteamCollection.bIsDynamic := false;
       SteamCollection.displayName := "RomM Favourites";
       SteamCollection.id := "uc-mine";
       SteamCollection.visibleApps := [101] |};
    {| SteamCollection.bIsDynamic := false;
       SteamCollection.displayName := "RomM: Game Boy";
       SteamCollection.id := "uc-gb";
       SteamCollection.visibleApps := [201] |} ].

Definition idle : SyncProgress.t :=
  {| SyncProgress.running := false; SyncProgress.phase := Some "done";
     SyncProgress.current := Some 3; SyncProgress.total := Some 3;
     SyncProgress.message := Some "Synced 3 saves" |}.

Definition enumerating : SyncProgress.t :=
  {| SyncProgress.running := true; SyncProgress.phase := Some "enumerating";
     SyncProgress.current := None; SyncProgress.total := None;
     SyncProgress.message := None |}.

Definition platformAppIds : list (string * list Z) :=
  [ ("SNES", [101; 102]); ("N64", [301]); ("Game Boy", []) ].

End Fixtures.

(** ** What is on screen while a request is pending *)

Section Pending.
Variable Req : Type.
Variable Resp : Req -> Type.
Variable St : Type.
Variable B : Type.
Variable respond : forall c : Req, B -> settled (Resp c) * B.

(** The requests of a handler that runs with no other handler in
    between, each with the component state the handler has produced when
    it issues the request; this is what is rendered while the request is
    awaited, as long as no other handler writes the same cells. *)
Fixpoint pendingStates (p : proc Resp St) (st : St) (b : B) : list (Req * St) :=
  match p with
  | Done => []
  | Update f k => pendingStates k (f st) b
  | Await c k =>
      let (r, b') := respond c b in
      (c, st) :: pendingStates (k r) st b'
  end.

End Pending.

Arguments pendingStates {Req Resp St B} respond p st b.

(** ** Handlers that overlap *)

Section Overlap.
Variable Req : Type.
Variable Resp : Req -> Type.
Variable St : Type.

(** A handler runs without interruption up to its next [await]; other
    handlers can run before the awaited promise settles.  A handler is
    then either through or waiting for a request, with what is to run
    once the request has settled. *)
Inductive suspended : Type :=
| Finished
| Awaiting (c : Req) (k : settled (Resp c) -> proc Resp St).

(** The handler [p] from component state [st] up to its next [await]. *)
Fixpoint upToAwait (p : proc Resp St) (st : St) : St * suspended :=
  match p with
  | Done => (st, Finished)
  | Update f k => upToAwait k (f st)
  | Await c k => (st, Awaiting c k)
  end.

(** The awaited request settles, with [reply c], when the component
    state is [st]: the handler goes on up to its next [await]. *)
Definition settle (reply : forall c : Req, settled (Resp c))
  (s : suspended) (st : St) : St * suspended :=
  match s with
  | Finished => (st, Finished)
  | Awaiting c k => upToAwait (k (reply c)) st
  end.

End Overlap.

Arguments Finished {Req Resp St}.
Arguments Awaiting {Req Resp St} c k.
Arguments upToAwait {Req Resp St} p st.
Arguments settle {Req Resp St} reply s st.

(** ** components/SaveSyncSettings.tsx: the rows and [formatTimeAgo] *)

Module SaveSyncSettingsView.
Import SaveSyncSettings.

(** [const key = `${c.rom_id}:${c.filename}`], the React key of a conflict
    row and the value compared with [resolving]. *)
Definition conflictRowKey (c : PendingConflict.t) : string :=
  String_of_number (PendingConflict.rom_id c) ++ ":" ++ PendingConflict.filename c.

Definition itemRowKey (item : OfflineQueueItem.t) : string :=
  String_of_number (OfflineQueueItem.rom_id item) ++ ":"
  ++ OfflineQueueItem.filename item.

(** [resolving === key], the [disabled] flag of the two buttons of a
    conflict row. *)
Definition isResolving (st : State) (c : PendingConflict.t) : bool :=
  match resolving st with
  | Some k => String.eqb k (conflictRowKey c)
  | None => false
  end.

(** [retrying === key], the [disabled] flag of "Retry Now". *)
Definition isRetrying (st : State) (item : OfflineQueueItem.t) : bool :=
  match retrying st with
  | Some k => String.eqb k (itemRowKey item)
  | None => false
  end.

(** [s] holds the character [a]. *)
Fixpoint hasChar (a : Ascii.ascii) (s : string) : bool :=
  match s with
  | EmptyString => false
  | String x s' => Ascii.eqb x a || hasChar a s'
  end.

(** [formatTimeAgo(iso)].  [now] is [new Date().getTime()]; [time] is
    [new Date(iso).getTime()], [None] when the string does not parse (the
    time value is then NaN: every comparison fails and NaN is printed).
    The differences are integers of milliseconds; [Math.floor] of a
    quotient is the floor division of [Z], which is what the
    floating-point division gives for the differences that two valid
    dates have (below 2^53 ms).  [new Date] and [getTime] do not throw, so
    the [catch] branch, which returns [iso], is never taken. *)
Definition formatTimeAgo (now : Z) (time : option Z) : string :=
  match time with
  | None => "NaNd ago"
  | Some d =>
      let diffMs := now - d in
      let diffMins := diffMs / 60000 in
      if diffMins <? 1 then "just now"
      else if diffMins <? 60 then String_of_number diffMins ++ "m ago"
      else
        let diffHours := diffMins / 60 in
        if diffHours <? 24 then String_of_number diffHours ++ "h ago"
        else
          let diffDays := diffHours / 24 in
          String_of_number diffDays ++ "d ago"
  end.

End SaveSyncSettingsView.

(** ** components/Settings.tsx *)

Module PluginSettings.
Record t : Type := {
  romm_url : string;
  romm_user : string;
  romm_pass_masked : string;
  has_credentials : bool
}.
End PluginSettings.

Module Settings.

Inductive request : Type :=
| getSettings
| saveSettings (url username password : string)
| testConnection
| startSync.

(** The three actions resolve with an object whose [message] is read. *)
Definition response (c : request) : Type :=
  match c with
  | getSettings => PluginSettings.t
  | saveSettings _ _ _ => string
  | testConnection => string
  | startSync => string
  end.

Record State : Type := {
  url : string;
  username : string;
  password : string;
  status : string;
  loading : bool
}.

Definition initialState : State :=
  {| url := ""; username := ""; password := ""; status := ""; loading := false |}.

Definition setUrl (v : string) (s : State) : State :=
  {| url := v; username := username s; password := password s;
     status := status s; loading := loading s |}.

Definition setUsername (v : string) (s : State) : State :=
  {| url := url s; username := v; password := password s;
     status := status s; loading := loading s |}.

Definition setPassword (v : string) (s : State) : State :=
  {| url := url s; username := username s; password := v;
     status := status s; loading := loading s |}.

Definition setStatus (v : string) (s : State) : State :=
  {| url := url s; username := username s; password := password s;
     status := v; loading := loading s |}.

Definition setLoading (v : bool) (s : State) : State :=
  {| url := url s; username := username s; password := password s;
     status := status s; loading := v |}.

Definition handler : Type := proc response State.

(** [getSettings().then((s) => { setUrl; setUsername; setPassword })],
    without a [catch]. *)
Definition onMount : handler :=
  Await getSettings (fun r =>
    match r with
    | Fulfilled s =>
        Update (setUrl (PluginSettings.romm_url s))
          (Update (setUsername (PluginSettings.romm_user s))
             (Update (setPassword (PluginSettings.romm_pass_masked s)) Done))
    | Rejected => Done
    end).

(** [url], [username] and [password] are the values captured by the
    render that created the callback. *)
Definition handleSave (url username password : string) : handler :=
  Update (setLoading true)
  (Update (setStatus "")
  (seq
     (Await (saveSettings url username password) (fun r : settled string =>
        match r with
        | Fulfilled result_message => Update (setStatus result_message) Done
        | Rejected => Update (setStatus "Failed to save settings") Done
        end))
     (Update (setLoading false) Done))).

Definition handleTest : handler :=
  Update (setLoading true)
  (Update (setStatus "")
  (seq
     (Await testConnection (fun r : settled string =>
        match r with
        | Fulfilled result_message => Update (setStatus result_message) Done
        | Rejected => Update (setStatus "Connection test failed") Done
        end))
     (Update (setLoading false) Done))).

Definition handleSync : handler :=
  Update (setLoading true)
  (Update (setStatus "")
  (seq
     (Await startSync (fun r : settled string =>
        match r with
        | Fulfilled result_message => Update (setStatus result_message) Done
        | Rejected => Update (setStatus "Failed to start sync") Done
        end))
     (Update (setLoading false) Done))).

End Settings.

(** ** What the mutators of the collection store are taken to do *)

Module CollectionLaws.
Import SteamCollection Collections.

Section Laws.
Variable store : Type.
Variable userCollections : store -> list SteamCollection.t.
Variable perform : call -> store -> settled unit * store.

(** A [SetAppsInCollection] that returns has written the apps of the
    collection with the given id. *)
Definition writesApps : Prop :=
  forall (i : string) (apps : list Z) (s s' : store) (u : unit),
    perform (SetAppsInCollection i apps) s = (Fulfilled u, s') ->
    userCollections s' = setApps i apps (userCollections s).

(** A [CreateCollection] that returns has added, after the others, one
    collection with the given name and apps and an id not in use. *)
Definition appendsCollection : Prop :=
  forall (name : string) (apps : list Z) (s s' : store) (u : unit),
    perform (CreateCollection name apps) s = (Fulfilled u, s') ->
    exists c,
      userCollections s' = (userCollections s ++ [c])%list /\
      displayName c = name /\ visibleApps c = apps /\
      ~ List.In (id c) (List.map id (userCollections s)).

End Laws.

Arguments writesApps {store} userCollections perform.
Arguments appendsCollection {store} userCollections perform.

(** The collection a platform is kept in, if any. *)
Definition collectionOf (cs : list SteamCollection.t) (platformName : string)
  : option SteamCollection.t :=
  find (fun c => String.eqb (displayName c) ("RomM: " ++ platformName)) cs.

End CollectionLaws.

Module MoreFixtures.

Definition loaded : PluginSettings.t :=
  {| PluginSettings.romm_url := "https://romm.example";
     PluginSettings.romm_user := "deck";
     PluginSettings.romm_pass_masked := "********";
     PluginSettings.has_credentials := true |}.

Definition settingsBackend (c : Settings.request) (b : unit)
  : settled (Settings.response c) * unit :=
  (match c return settled (Settings.response c) with
   | Settings.getSettings => Fulfilled loaded
   | Settings.saveSettings _ _ _ => Fulfilled "Settings saved"
   | Settings.testConnection => Fulfilled "Connected"
   | Settings.startSync => Fulfilled "Sync started"
   end, b).

(** A platforms backend that accepts every change. *)
Definition platformsReachable (c : PlatformSync.request) (b : unit)
  : settled (PlatformSync.response c) * unit :=
  (match c return settled (PlatformSync.response c) with
   | PlatformSync.getPlatforms => Fulfilled (true, Fixtures.somePlatforms)
   | PlatformSync.savePlatformSync _ _ => Fulfilled tt
   | PlatformSync.setAllPlatformsSync _ => Fulfilled tt
   end, b).

(** A list-backed collection store like [Fixtures.listPerform] whose
    [CreateCollection] throws when the id it would give is taken. *)
Definition guardedPerform (c : Collections.call) (cs : Fixtures.listStore)
  : settled unit * Fixtures.listStore :=
  match c with
  | Collections.CreateCollection name _ =>
      if existsb (String.eqb ("uc-" ++ name)) (List.map SteamCollection.id cs)
      then (Rejected, cs)
      else Fixtures.listPerform c cs
  | _ => Fixtures.listPerform c cs
  end.

End MoreFixtures.

(* ================================================================== *)
(** * Part II: properties                                              *)
(* ================================================================== *)

Open Scope list_scope.

(** ** Running handlers *)

Section RunFacts.
Variable Req : Type.
Variable Resp : Req -> Type.
Variable St : Type.
Variable B : Type.
Variable respond : forall c : Req, B -> settled (Resp c) * B.

Lemma run_seq (p q : proc Resp St) (st : St) (b : B) :
  run respond (seq p q) st b =
  let o := run respond p st b in
  let o' := run respond q (ui o) (backend o) in
  {| ui := ui o'; backend := backend o';
     requests := requests o ++ requests o' |}.
Proof.
  revert st b.
  induction p as [| f k IH | c k IH]; intros st b; cbn.
  - destruct (run respond q st b); reflexivity.
  - apply IH.
  - destruct (respond c b) as [r b']. rewrite IH. reflexivity.
Qed.

End RunFacts.

(** ** Removing the entry with a given key from a list *)

Section RemoveByKey.
Variable A K : Type.
Variable key : A -> K.
Variable same : A -> bool.
Variable x : A.
Hypothesis same_spec : forall y, same y = true <-> key y = key x.

Lemma filter_other_id (l : list A) :
  ~ In (key x) (map key l) -> filter (fun y => negb (same y)) l = l.
Proof.
  induction l as [| y l IH]; cbn; intros H; [reflexivity|].
  destruct (same y) eqn:E; cbn.
  - exfalso. apply H. left. now apply same_spec.
  - f_equal. apply IH. intros Hin. apply H. now right.
Qed.

Lemma filter_other_In (l : list A) (y : A) :
  In y (filter (fun y => negb (same y)) l) <-> In y l /\ key y <> key x.
Proof.
  rewrite filter_In. split; intros [Hin H]; split; auto.
  - intros E. apply same_spec in E. rewrite E in H. discriminate.
  - destruct (same y) eqn:E; [|reflexivity].
    exfalso. apply H. now apply same_spec.
Qed.

Lemma filter_other_removes_one (l : list A) :
  NoDup (map key l) -> In x l ->
  exists l1 l2, l = l1 ++ x :: l2 /\
                filter (fun y => negb (same y)) l = l1 ++ l2.
Proof.
  intros ND Hin.
  destruct (in_split _ _ Hin) as (l1 & l2 & ->).
  exists l1, l2. split; [reflexivity|].
  rewrite map_app in ND. cbn in ND.
  pose proof (NoDup_remove_2 _ _ _ ND) as Hnot.
  rewrite filter_app. cbn.
  assert (Hx : same x = true) by now apply same_spec.
  rewrite Hx. cbn.
  rewrite !filter_other_id; [reflexivity | |];
    intros H; apply Hnot; apply in_or_app; auto.
Qed.

End RemoveByKey.

(** ** The save-sync panel: resolve, retry, clear, sync all *)

Section SaveSyncPanel.
Import SaveSyncSettings.
Variable B : Type.
Variable respond : forall c : request, B -> settled (response c) * B.

Lemma sameConflict_spec (conflict c : PendingConflict.t) :
  sameConflict conflict c = true <-> conflictKey c = conflictKey conflict.
Proof.
  unfold sameConflict, conflictKey.
  rewrite andb_true_iff, Z.eqb_eq, String.eqb_eq.
  split; [intros [-> ->]; reflexivity | intros E; inversion E; auto].
Qed.

Lemma sameItem_spec (item f : OfflineQueueItem.t) :
  sameItem item f = true <-> itemKey f = itemKey item.
Proof.
  unfold sameItem, itemKey.
  rewrite andb_true_iff, Z.eqb_eq, String.eqb_eq.
  split; [intros [-> ->]; reflexivity | intros E; inversion E; auto].
Qed.

(** C1.  [handleResolve] issues the one request [resolveConflict] and
    never touches the list of failed operations.  When the request is
    fulfilled the conflicts shown are the previous ones without the entries
    that carry the key of the resolved conflict: an entry stays exactly
    when its key differs, and when keys are unique and the conflict was
    shown, it is that one entry that goes.  When the request is rejected
    the conflicts are left as they were. *)
Theorem handleResolve_removes_on_success_only
  (b : B) (st : State) (conflict : PendingConflict.t) (resolution : Transfer) :
  let c := resolveConflict (PendingConflict.rom_id conflict)
                           (PendingConflict.filename conflict) resolution in
  let o := run respond (handleResolve conflict resolution) st b in
  requests o = [c] /\
  failedOps (ui o) = failedOps st /\
  match fst (respond c b) with
  | Fulfilled _ =>
      (forall x, In x (conflicts (ui o)) <->
                 In x (conflicts st) /\ conflictKey x <> conflictKey conflict) /\
      (NoDup (map conflictKey (conflicts st)) -> In conflict (conflicts st) ->
       exists l1 l2, conflicts st = l1 ++ conflict :: l2 /\
                     conflicts (ui o) = l1 ++ l2)
  | Rejected => conflicts (ui o) = conflicts st
  end.
Proof.
  cbn zeta. unfold handleResolve. cbn.
  destruct (respond _ b) as [[u|] b']; cbn;
    (split; [reflexivity | split; [reflexivity | ]]); [split | reflexivity].
  - intros x.
    apply (@filter_other_In _ _ conflictKey _ conflict
             (sameConflict_spec conflict)).
  - intros ND Hin.
    apply (@filter_other_removes_one _ _ conflictKey _ conflict
             (sameConflict_spec conflict)); assumption.
Qed.

(** C2.  [handleRetry] issues the one request [retryFailedSync].  When it
    is fulfilled with [success] true, the failed operations shown are the
    previous ones without the entries that carry the key of the retried
    item (that one entry when keys are unique); when it is fulfilled with
    [success] false, or rejected, the list is left as it was. *)
Theorem handleRetry_removes_on_success_only
  (b : B) (st : State) (item : OfflineQueueItem.t) :
  let c := retryFailedSync (OfflineQueueItem.rom_id item)
                           (OfflineQueueItem.filename item) in
  let o := run respond (handleRetry item) st b in
  requests o = [c] /\
  conflicts (ui o) = conflicts st /\
  match fst (respond c b) with
  | Fulfilled true =>
      (forall x, In x (failedOps (ui o)) <->
                 In x (failedOps st) /\ itemKey x <> itemKey item) /\
      (NoDup (map itemKey (failedOps st)) -> In item (failedOps st) ->
       exists l1 l2, failedOps st = l1 ++ item :: l2 /\
                     failedOps (ui o) = l1 ++ l2)
  | Fulfilled false => failedOps (ui o) = failedOps st
  | Rejected => failedOps (ui o) = failedOps st
  end.
Proof.
  cbn zeta. unfold handleRetry. cbn.
  destruct (respond _ b) as [[[|]|] b']; cbn;
    (split; [reflexivity | split; [reflexivity | ]]);
    [split | reflexivity | reflexivity].
  - intros x.
    apply (@filter_other_In _ _ itemKey _ item (sameItem_spec item)).
  - intros ND Hin.
    apply (@filter_other_removes_one _ _ itemKey _ item (sameItem_spec item));
      assumption.
Qed.

(** C5.  [handleClearQueue] issues the one request [clearOfflineQueue],
    which is not a request that transfers a save; when it is fulfilled the
    list of failed operations is empty whatever it held, and the conflicts
    are untouched. *)
Theorem handleClearQueue_empties_without_transfer (b : B) (st : State) :
  let o := run respond handleClearQueue st b in
  requests o = [clearOfflineQueue] /\
  existsb attemptsTransfer (requests o) = false /\
  conflicts (ui o) = conflicts st /\
  match fst (respond clearOfflineQueue b) with
  | Fulfilled _ => failedOps (ui o) = []
  | Rejected => failedOps (ui o) = failedOps st
  end.
Proof.
  cbn zeta. unfold handleClearQueue. cbn.
  destruct (respond clearOfflineQueue b) as [[u|] b']; cbn; auto.
Qed.

End SaveSyncPanel.

(** C1 at work: the conflict for rom 7, "save.dat" is resolved with an
    upload that succeeds; it is the one entry that leaves the view. *)
Lemma handleResolve_witness :
  let o := run Fixtures.agreeable
             (SaveSyncSettings.handleResolve Fixtures.conflict7 upload)
             Fixtures.busyState tt in
  SaveSyncSettings.failedOps (ui o) = [Fixtures.item7; Fixtures.item8] /\
  exists l1 l2,
    [Fixtures.conflict7; Fixtures.conflict9] = l1 ++ Fixtures.conflict7 :: l2 /\
    SaveSyncSettings.conflicts (ui o) = l1 ++ l2.
Proof.
  destruct (handleResolve_removes_on_success_only unit Fixtures.agreeable tt
              Fixtures.busyState Fixtures.conflict7 upload)
    as (_ & Hqueue & Hconflicts).
  split; [exact Hqueue|].
  cbn in Hconflicts. destruct Hconflicts as [_ Hone].
  apply Hone.
  - repeat constructor; cbn; intuition discriminate.
  - left; reflexivity.
Defined.

Example handleResolve_success :
  let o := run Fixtures.agreeable
             (SaveSyncSettings.handleResolve Fixtures.conflict7 upload)
             Fixtures.busyState tt in
  SaveSyncSettings.conflicts (ui o) = [Fixtures.conflict9] /\
  SaveSyncSettings.failedOps (ui o) = [Fixtures.item7; Fixtures.item8] /\
  SaveSyncSettings.resolving (ui o) = None /\
  requests o = [SaveSyncSettings.resolveConflict 7 "save.dat" upload].
Proof. repeat split. Qed.

Example handleResolve_failure :
  let o := run Fixtures.unreachable
             (SaveSyncSettings.handleResolve Fixtures.conflict7 upload)
             Fixtures.busyState tt in
  SaveSyncSettings.conflicts (ui o) = [Fixtures.conflict7; Fixtures.conflict9] /\
  SaveSyncSettings.failedOps (ui o) = [Fixtures.item7; Fixtures.item8] /\
  requests o = [SaveSyncSettings.resolveConflict 7 "save.dat" upload].
Proof. repeat split. Qed.

Example resolving_key :
  (String_of_number (PendingConflict.rom_id Fixtures.conflict7) ++ ":"
   ++ PendingConflict.filename Fixtures.conflict7)%string = "7:save.dat"%string.
Proof. reflexivity. Qed.

(** C2 at work: the retry of the failed upload for rom 7 succeeds; it is
    the one entry that leaves the queue view. *)
Lemma handleRetry_witness :
  let o := run Fixtures.agreeable (SaveSyncSettings.handleRetry Fixtures.item7)
             Fixtures.busyState tt in
  exists l1 l2,
    [Fixtures.item7; Fixtures.item8] = l1 ++ Fixtures.item7 :: l2 /\
    SaveSyncSettings.failedOps (ui o) = l1 ++ l2.
Proof.
  destruct (handleRetry_removes_on_success_only unit Fixtures.agreeable tt
              Fixtures.busyState Fixtures.item7)
    as (_ & _ & Hqueue).
  cbn in Hqueue. destruct Hqueue as [_ Hone].
  apply Hone.
  - repeat constructor; cbn; intuition discriminate.
  - left; reflexivity.
Defined.

Example handleRetry_failure :
  let o := run Fixtures.unreachable (SaveSyncSettings.handleRetry Fixtures.item7)
             Fixtures.busyState tt in
  SaveSyncSettings.failedOps (ui o) = [Fixtures.item7; Fixtures.item8] /\
  SaveSyncSettings.retrying (ui o) = None.
Proof. repeat split. Qed.

Example handleClearQueue_success :
  let o := run Fixtures.agreeable SaveSyncSettings.handleClearQueue
             Fixtures.busyState tt in
  SaveSyncSettings.failedOps (ui o) = [] /\
  SaveSyncSettings.conflicts (ui o) = [Fixtures.conflict7; Fixtures.conflict9] /\
  requests o = [SaveSyncSettings.clearOfflineQueue].
Proof. repeat split. Qed.

Example handleClearQueue_failure :
  let o := run Fixtures.unreachable SaveSyncSettings.handleClearQueue
             Fixtures.busyState tt in
  SaveSyncSettings.failedOps (ui o) = [Fixtures.item7; Fixtures.item8].
Proof. reflexivity. Qed.

Section SyncAll.
Import SaveSyncSettings.
Variable B : Type.
Variable respond : forall c : request, B -> settled (response c) * B.

(** C3, as the code has it.  When [syncAllSaves] is fulfilled,
    [handleSyncAll] shows the returned message and then asks the backend
    for the pending conflicts exactly when the returned count is positive:
    the view then takes what [getPendingConflicts] is fulfilled with.  With
    a count of zero no such request is made and the conflicts shown stay
    as they were.  The queue view is reloaded in both cases.  When
    [syncAllSaves] is rejected the status reads "Sync failed" and nothing
    is reloaded. *)
Theorem handleSyncAll_refreshes_on_positive_count (b : B) (st : State) :
  let o := run respond handleSyncAll st b in
  syncing (ui o) = false /\
  match respond syncAllSaves b with
  | (Fulfilled result, b1) =>
      syncStatus (ui o) = SyncAllResult.message result /\
      (In getPendingConflicts (requests o) <-> 0 < SyncAllResult.conflicts result) /\
      (0 < SyncAllResult.conflicts result ->
         requests o = [syncAllSaves; getPendingConflicts; getOfflineQueue] /\
         conflicts (ui o) =
           match fst (respond getPendingConflicts b1) with
           | Fulfilled pending => pending
           | Rejected => conflicts st
           end) /\
      (SyncAllResult.conflicts result <= 0 ->
         requests o = [syncAllSaves; getOfflineQueue] /\
         conflicts (ui o) = conflicts st)
  | (Rejected, _) =>
      syncStatus (ui o) = "Sync failed"%string /\
      requests o = [syncAllSaves] /\
      conflicts (ui o) = conflicts st /\
      failedOps (ui o) = failedOps st
  end.
Proof.
  cbn zeta. unfold handleSyncAll, loadConflicts, loadFailedOps. cbn.
  destruct (respond syncAllSaves b) as [[result|] b1]; cbn; [|auto].
  destruct (Z.gtb_spec (SyncAllResult.conflicts result) 0) as [Hpos|Hle]; cbn.
  - destruct (respond getPendingConflicts b1) as [[pending|] b2]; cbn;
      destruct (respond getOfflineQueue b2) as [[queue|] b3]; cbn;
      (split; [reflexivity|]); (split; [reflexivity|]);
      (split; [split; [intros _; exact Hpos | intros _; right; left; reflexivity]|]);
      (split; [intros _; split; reflexivity | intros Hle; lia]).
  - destruct (respond getOfflineQueue b1) as [[queue|] b2]; cbn;
      (split; [reflexivity|]); (split; [reflexivity|]);
      (split; [split; [intros [H|[H|[]]]; discriminate H | intros Hpos; lia]|]);
      (split; [intros Hpos; lia | intros _; split; reflexivity]).
Qed.

End SyncAll.

(** C3 at work: the pass reports one outstanding conflict, so the view is
    reloaded and shows what the backend holds. *)
Lemma handleSyncAll_witness :
  let o := run Fixtures.contested SaveSyncSettings.handleSyncAll
             Fixtures.busyState tt in
  requests o = [SaveSyncSettings.syncAllSaves;
                SaveSyncSettings.getPendingConflicts;
                SaveSyncSettings.getOfflineQueue] /\
  SaveSyncSettings.conflicts (ui o) = [Fixtures.conflict9].
Proof.
  destruct (handleSyncAll_refreshes_on_positive_count unit Fixtures.contested
              tt Fixtures.busyState) as [_ H].
  cbn in H. destruct H as (_ & _ & Hpos & _).
  apply Hpos. lia.
Defined.

(** C3 as first stated fails: a completed pass that reports no
    outstanding conflict does not refresh the conflict view.  The panel
    keeps showing its two conflicts although the backend would answer that
    none is pending. *)
Lemma handleSyncAll_zero_count_no_refresh :
  let o := run Fixtures.agreeable SaveSyncSettings.handleSyncAll
               Fixtures.busyState tt in
  fst (Fixtures.agreeable SaveSyncSettings.syncAllSaves tt)
    = Fulfilled Fixtures.cleanPass /\
  fst (Fixtures.agreeable SaveSyncSettings.getPendingConflicts tt)
    = Fulfilled [] /\
  ~ In SaveSyncSettings.getPendingConflicts (requests o) /\
  SaveSyncSettings.conflicts (ui o) = [Fixtures.conflict7; Fixtures.conflict9].
Proof.
  cbn. repeat split.
  intros [H|[H|[]]]; discriminate H.
Qed.

(** ** The conflict mode stays one of the four *)

Section ConflictModeInvariant.
Import SaveSyncSettings SettingsPanel.
Variable Others : Type.
Variable others : forall c : request, Others -> settled (response c) * Others.

Lemma updatesRecognized_app (rs rs' : list request) :
  updatesRecognized rs -> updatesRecognized rs' -> updatesRecognized (rs ++ rs').
Proof.
  intros H H' s Hin. apply in_app_or in Hin. destruct Hin; auto.
Qed.

Lemma options_recognized (index : nat) (option : ConflictMode * string) :
  nth_error conflictModeOptions index = Some option ->
  SettingsStore.recognized (fst option) = true.
Proof.
  do 4 (destruct index as [|index];
        [intros E; injection E as <-; reflexivity|]).
  destruct index; discriminate.
Qed.

Lemma handleSettingChange_inv (st : State) (b : B Others)
  (partial : SaveSyncSettingsType.partial) :
  modeInv st b ->
  (forall m, SaveSyncSettingsType.conflict_mode' partial = Some m ->
             SettingsStore.recognized m = true) ->
  let o := run (respond others) (handleSettingChange (settings st) partial) st b in
  modeInv (ui o) (backend o) /\ updatesRecognized (requests o).
Proof.
  intros [Hstore Hui] Hpartial. cbn zeta.
  destruct b as [store ob].
  destruct (settings st) as [s|] eqn:Es; cbn.
  - assert (Hupd : SettingsStore.recognized (SaveSyncSettingsType.conflict_mode (SaveSyncSettingsType.spread s partial)) = true).
    { unfold SaveSyncSettingsType.spread; cbn.
      destruct (SaveSyncSettingsType.conflict_mode' partial) as [m|]; auto. }
    unfold SettingsStore.update. rewrite Hupd. cbn.
    split; [split; cbn|].
    + exact Hupd.
    + intros s' E. injection E as <-. exact Hupd.
    + intros s' [E|[]]. injection E as <-. exact Hupd.
  - split; [split; cbn|]; auto.
    + rewrite Es. discriminate.
    + intros s' [].
Qed.

Ltac answer :=
  repeat match goal with
         | |- context [others ?c ?ob] =>
             let r := fresh "r" in
             destruct (others c ob) as [[r|] ?]; cbn
         | |- context [seq (if ?r then _ else _) _] => destruct r; cbn
         end.

Lemma onEvent_inv (e : event) (st : State) (b : B Others) :
  modeInv st b ->
  let o := run (respond others) (onEvent e st) st b in
  modeInv (ui o) (backend o) /\ updatesRecognized (requests o).
Proof.
  intros Hinv.
  destruct e as [| value | value | index | | c resolution | item |];
    try (apply handleSettingChange_inv; [exact Hinv | cbn; intros m E; discriminate]).
  - (* Mount *)
    destruct Hinv as [Hstore Hui]. destruct b as [store ob]. cbn in *.
    answer; (split; [split; cbn; [exact Hstore | intros s E; injection E as <-; exact Hstore]
                    | intros s Hin; cbn in Hin; intuition discriminate]).
  - (* SelectConflictMode *)
    cbn [onEvent].
    destruct (nth_error conflictModeOptions index) as [option|] eqn:En.
    + apply handleSettingChange_inv; [exact Hinv|].
      cbn. intros m E. injection E as <-. eapply options_recognized; eauto.
    + cbn. split; [exact Hinv | intros s []].
  - (* ClickSyncAll *)
    destruct Hinv as [Hstore Hui]. destruct b as [store ob]. cbn in *.
    unfold handleSyncAll, loadConflicts, loadFailedOps. cbn.
    answer;
      (split; [split; cbn; [exact Hstore | exact Hui]
              | intros s Hin; cbn in Hin; intuition discriminate]).
  - (* ClickResolve *)
    destruct Hinv as [Hstore Hui]. destruct b as [store ob]. cbn in *.
    answer; (split; [split; cbn; [exact Hstore | exact Hui]
                    | intros s Hin; cbn in Hin; intuition discriminate]).
  - (* ClickRetry *)
    destruct Hinv as [Hstore Hui]. destruct b as [store ob]. cbn in *.
    answer; (split; [split; cbn; [exact Hstore | exact Hui]
                    | intros s Hin; cbn in Hin; intuition discriminate]).
  - (* ClickClearQueue *)
    destruct Hinv as [Hstore Hui]. destruct b as [store ob]. cbn in *.
    answer; (split; [split; cbn; [exact Hstore | exact Hui]
                    | intros s Hin; cbn in Hin; intuition discriminate]).
Qed.

Lemma session_inv (es : list event) (st : State) (b : B Others) :
  modeInv st b ->
  let o := session others es st b in
  modeInv (ui o) (backend o) /\ updatesRecognized (requests o).
Proof.
  revert st b. induction es as [|e es IH]; intros st b Hinv; cbn.
  - split; [exact Hinv | intros s []].
  - destruct (onEvent_inv e st b Hinv) as [Hinv1 Hreq1].
    destruct (IH _ _ Hinv1) as [Hinv2 Hreq2].
    split; [exact Hinv2 | apply updatesRecognized_app; assumption].
Qed.

End ConflictModeInvariant.

Lemma recognized_iff_defined (m : ConflictMode) :
  SettingsStore.recognized m = true <-> In m SettingsStore.definedModes.
Proof.
  unfold SettingsStore.recognized, SettingsStore.parseMode,
    SettingsStore.definedModes.
  destruct (String.eqb_spec m "newest_wins") as [->|N1]; [cbn; tauto|].
  destruct (String.eqb_spec m "always_upload") as [->|N2]; [cbn; tauto|].
  destruct (String.eqb_spec m "always_download") as [->|N3]; [cbn; tauto|].
  destruct (String.eqb_spec m "ask_me") as [->|N4]; [cbn; tauto|].
  split; [discriminate|].
  intros [E|[E|[E|[E|[]]]]]; symmetry in E; contradiction.
Qed.

(** C4.  The dropdown offers exactly the four defined values.  Starting
    from a store that holds one of them, after any sequence of actions on
    the panel the stored [conflict_mode] is one of the four, and every
    [updateSaveSyncSettings] request the panel issued carried one of the
    four.  A submitted record whose [conflict_mode] is none of the four is
    rejected by the store, which keeps its value. *)
Theorem conflict_mode_stays_defined
  (Others : Type)
  (others : forall c : SaveSyncSettings.request,
      Others -> settled (SaveSyncSettings.response c) * Others)
  (store0 : SaveSyncSettingsType.t) (others0 : Others)
  (es : list SettingsPanel.event) :
  In (SaveSyncSettingsType.conflict_mode store0) SettingsStore.definedModes ->
  let o := SettingsPanel.session others es SaveSyncSettings.initialState
             (store0, others0) in
  map fst SaveSyncSettings.conflictModeOptions = SettingsStore.definedModes /\
  In (SaveSyncSettingsType.conflict_mode (fst (backend o)))
     SettingsStore.definedModes /\
  (forall s, In (SaveSyncSettings.updateSaveSyncSettings s) (requests o) ->
             In (SaveSyncSettingsType.conflict_mode s) SettingsStore.definedModes) /\
  (forall submitted store,
      ~ In (SaveSyncSettingsType.conflict_mode submitted) SettingsStore.definedModes ->
      SettingsStore.update submitted store = (Rejected, store)).
Proof.
  intros H0 o.
  assert (Hinv : @SettingsPanel.modeInv Others SaveSyncSettings.initialState
                   (store0, others0)).
  { split; cbn; [now apply recognized_iff_defined | discriminate]. }
  destruct (session_inv Others others es _ _ Hinv) as [[Hstore _] Hreq].
  fold o in Hstore, Hreq.
  split; [reflexivity|]. split; [now apply recognized_iff_defined|].
  split.
  - intros s Hin. apply recognized_iff_defined. now apply Hreq.
  - intros submitted store Hno. unfold SettingsStore.update.
    destruct (SettingsStore.recognized
                (SaveSyncSettingsType.conflict_mode submitted)) eqn:E;
      [|reflexivity].
    exfalso. apply Hno. now apply recognized_iff_defined.
Qed.

(** C4 at work: mount the panel, pick "Ask Me", switch a toggle. *)
Lemma conflict_mode_stays_defined_witness :
  In (SaveSyncSettingsType.conflict_mode Fixtures.defaults)
     SettingsStore.definedModes /\
  let o := SettingsPanel.session Fixtures.agreeable
             [SettingsPanel.Mount; SettingsPanel.SelectConflictMode 3;
              SettingsPanel.ToggleSyncAfterExit false]
             SaveSyncSettings.initialState (Fixtures.defaults, tt) in
  In (SaveSyncSettingsType.conflict_mode (fst (backend o)))
     SettingsStore.definedModes /\
  SaveSyncSettingsType.conflict_mode (fst (backend o)) = "ask_me"%string.
Proof.
  assert (H0 : In (SaveSyncSettingsType.conflict_mode Fixtures.defaults)
                  SettingsStore.definedModes) by (left; reflexivity).
  split; [exact H0|].
  pose proof (conflict_mode_stays_defined unit Fixtures.agreeable
                Fixtures.defaults tt
                [SettingsPanel.Mount; SettingsPanel.SelectConflictMode 3;
                 SettingsPanel.ToggleSyncAfterExit false] H0) as H.
  cbn zeta in *. destruct H as (_ & Hstore & _).
  split; [exact Hstore | reflexivity].
Defined.

(** ** The progress store *)

(** C6.  After the listener has handled a [sync_progress] event the store
    holds the payload of that event, whatever it held before; after any
    run of events it holds the payload of the last one. *)
Theorem syncProgress_holds_last_event
  (s : syncProgress.store) (events : list SyncProgress.t)
  (progress : SyncProgress.t) :
  syncProgress.getSyncProgress (index.syncProgressListener progress s) = progress /\
  syncProgress.getSyncProgress (index.deliver (events ++ [progress]) s) = progress.
Proof.
  split; [reflexivity|].
  unfold index.deliver. rewrite fold_left_app. reflexivity.
Qed.

(** The fields an event leaves out are absent afterwards: nothing of the
    previous value is kept. *)
Example syncProgress_no_merge :
  syncProgress.getSyncProgress
    (index.syncProgressListener Fixtures.enumerating Fixtures.idle)
  = Fixtures.enumerating /\
  SyncProgress.message
    (syncProgress.getSyncProgress
       (index.deliver [Fixtures.idle; Fixtures.enumerating] Fixtures.idle))
  = None.
Proof. split; reflexivity. Qed.

(** ** Newest wins *)

(** C7.  Under [newest_wins] a conflicting save is uploaded when the local
    copy is strictly newer and downloaded otherwise; a tie is a
    download. *)
Theorem newest_wins_resolution (local_mtime remote_mtime : Z) :
  (remote_mtime < local_mtime ->
   ConflictResolver.resolve SettingsStore.newest_wins local_mtime remote_mtime
   = ConflictResolver.Act upload) /\
  (local_mtime <= remote_mtime ->
   ConflictResolver.resolve SettingsStore.newest_wins local_mtime remote_mtime
   = ConflictResolver.Act download) /\
  ConflictResolver.resolve SettingsStore.newest_wins local_mtime local_mtime
  = ConflictResolver.Act download.
Proof.
  unfold ConflictResolver.resolve.
  split; [|split].
  - intros H. apply Z.ltb_lt in H. now rewrite H.
  - intros H. apply Z.ltb_ge in H. now rewrite H.
  - now rewrite Z.ltb_irrefl.
Qed.

Lemma newest_wins_resolution_witness :
  ConflictResolver.resolve SettingsStore.newest_wins 200 100
  = ConflictResolver.Act upload /\
  ConflictResolver.resolve SettingsStore.newest_wins 100 200
  = ConflictResolver.Act download.
Proof.
  split.
  - apply (proj1 (newest_wins_resolution 200 100)). lia.
  - apply (proj1 (proj2 (newest_wins_resolution 100 200))). lia.
Defined.

(** ** The platforms panel *)

Section PlatformsPanel.
Import PlatformSyncSetting PlatformSync.
Variable B : Type.
Variable respond : forall c : request, B -> settled (response c) * B.

Lemma copy_id (p : PlatformSyncSetting.t) : copy p = p.
Proof. destruct p; reflexivity. Qed.

Lemma map_copy (ps : list PlatformSyncSetting.t) : map copy ps = ps.
Proof.
  induction ps as [|p ps IH]; cbn; [reflexivity|].
  now rewrite copy_id, IH.
Qed.

Lemma with_sync_enabled_back (p : PlatformSyncSetting.t) (v : bool) :
  sync_enabled p = negb v ->
  with_sync_enabled (with_sync_enabled p v) (negb v) = p.
Proof. destruct p; cbn; intros ->; reflexivity. Qed.

Lemma toggle_then_back (id0 : Z) (enabled : bool)
  (ps : list PlatformSyncSetting.t) :
  Forall2 (toggledBack id0 enabled) ps
    (map (fun p => if id p =? id0 then with_sync_enabled p (negb enabled) else p)
       (map (fun p => if id p =? id0 then with_sync_enabled p enabled else p) ps)).
Proof.
  induction ps as [|p ps IH]; cbn; constructor; [|exact IH].
  destruct (Z.eqb_spec (id p) id0) as [E|N]; cbn.
  - rewrite E, Z.eqb_refl. split; [intros N; contradiction | reflexivity].
  - destruct (Z.eqb_spec (id p) id0); [contradiction|].
    split; [reflexivity | intros E; contradiction].
Qed.

(** C8.  When [savePlatformSync] is rejected, [handleToggle] leaves every
    entry with another id as it was and gives the entries with the toggled
    id the negation of the requested value, their other fields kept; the
    request being a toggle, which asks for the negation of the flag shown,
    the list is the list from before.  When [setAllPlatformsSync] is
    rejected, [handleSetAll] puts back the list it copied on entry. *)
Theorem platform_updates_rolled_back
  (b : B) (st : State) (id0 : Z) (enabled : bool) :
  (fst (respond (savePlatformSync id0 enabled) b) = Rejected ->
   let o := run respond (handleToggle id0 enabled) st b in
   Forall2 (toggledBack id0 enabled) (platforms st) (platforms (ui o)) /\
   ((forall p, In p (platforms st) -> id p = id0 ->
               sync_enabled p = negb enabled) ->
    platforms (ui o) = platforms st)) /\
  (fst (respond (setAllPlatformsSync enabled) b) = Rejected ->
   let o := run respond (handleSetAll (platforms st) enabled) st b in
   platforms (ui o) = platforms st).
Proof.
  split.
  - intros Hrej. cbn zeta. unfold handleToggle. cbn.
    destruct (respond (savePlatformSync id0 enabled) b) as [r b'].
    cbn in Hrej. subst r. cbn.
    split; [apply toggle_then_back|].
    intros Hflip. rewrite map_map.
    rewrite <- (map_id (platforms st)) at 2.
    apply map_ext_in. intros p Hin.
    destruct (Z.eqb_spec (id p) id0) as [E|N]; cbn.
    + rewrite E, Z.eqb_refl. apply with_sync_enabled_back. now apply Hflip.
    + destruct (Z.eqb_spec (id p) id0); [contradiction | reflexivity].
  - intros Hrej. cbn zeta. unfold handleSetAll. cbn.
    destruct (respond (setAllPlatformsSync enabled) b) as [r b'].
    cbn in Hrej. subst r. cbn. apply map_copy.
Qed.

End PlatformsPanel.

(** C8 at work: the backend is out of reach; turning SNES on and pressing
    "Enable All" both leave the three platforms as they were shown. *)
Lemma platform_updates_rolled_back_witness :
  PlatformSync.platforms
    (ui (run Fixtures.platformsUnreachable (PlatformSync.handleToggle 2 true)
           Fixtures.platformsShown tt))
  = Fixtures.somePlatforms /\
  PlatformSync.platforms
    (ui (run Fixtures.platformsUnreachable
           (PlatformSync.handleSetAll Fixtures.somePlatforms true)
           Fixtures.platformsShown tt))
  = Fixtures.somePlatforms.
Proof.
  destruct (platform_updates_rolled_back unit Fixtures.platformsUnreachable
              tt Fixtures.platformsShown 2 true) as [Htoggle Hall].
  split.
  - apply (proj2 (Htoggle eq_refl)).
    intros p Hin E. cbn in Hin.
    destruct Hin as [<-|[<-|[<-|[]]]]; cbn in E; try discriminate E.
    reflexivity.
  - apply (Hall eq_refl).
Defined.

(** ** Steam collections *)

Section CollectionFacts.
Import SteamCollection Collections.

Lemma with_visibleApps_twice (c : SteamCollection.t) (apps : list Z) :
  with_visibleApps (with_visibleApps c apps) apps = with_visibleApps c apps.
Proof. reflexivity. Qed.

Lemma NoDup_map_injective {A K : Type} (f : A -> K) (l : list A) (x y : A) :
  NoDup (map f l) -> In x l -> In y l -> f x = f y -> x = y.
Proof.
  induction l as [|a l IH]; cbn; intros ND Hx Hy E; [contradiction|].
  inversion ND as [|? ? Hnot ND']; subst.
  destruct Hx as [<-|Hx], Hy as [<-|Hy]; auto.
  - exfalso. apply Hnot. rewrite E. now apply in_map.
  - exfalso. apply Hnot. rewrite <- E. now apply in_map.
Qed.

(** Clearing the collections with the given ids, one after the other. *)
Lemma setApps_each (ids : list string) (cs : list SteamCollection.t) :
  fold_left (fun acc i => setApps i [] acc) ids cs =
  map (fun c => if existsb (String.eqb (id c)) ids
                then with_visibleApps c [] else c) cs.
Proof.
  revert cs. induction ids as [|i ids IH]; intros cs; cbn.
  - now rewrite map_id.
  - rewrite IH. unfold setApps. rewrite map_map.
    apply map_ext. intros c.
    destruct (String.eqb (id c) i); cbn.
    + now destruct (existsb (String.eqb (id c)) ids).
    + reflexivity.
Qed.

Lemma romm_ids (cs : list SteamCollection.t) (c : SteamCollection.t) :
  NoDup (map id cs) -> In c cs ->
  existsb (String.eqb (id c)) (map id (filter isRomM cs)) = isRomM c.
Proof.
  intros ND Hin.
  destruct (isRomM c) eqn:Ec.
  - apply existsb_exists. exists (id c). split; [|apply String.eqb_refl].
    apply in_map. apply filter_In. now split.
  - destruct (existsb (String.eqb (id c)) (map id (filter isRomM cs))) eqn:Ex;
      [|reflexivity].
    apply existsb_exists in Ex. destruct Ex as (i & Hi & Ei).
    apply String.eqb_eq in Ei. apply in_map_iff in Hi.
    destruct Hi as (c' & <- & Hc'). apply filter_In in Hc'.
    destruct Hc' as [Hc' Er].
    assert (c = c') by (eapply NoDup_map_injective; eauto).
    subst c'. congruence.
Qed.

Variable store : Type.
Variable userCollections : store -> list SteamCollection.t.
Variable perform : call -> store -> settled unit * store.

(** Every call of the clearing loop empties one of the listed
    collections; when none threw, each of them got its call, in order. *)
Lemma clearEach_calls (l : list SteamCollection.t) (st : store) :
  let log := snd (clearEach perform l st) in
  Forall (fun e => exists c, In c l /\ what e = SetAppsInCollection (id c) []) log /\
  (Forall (fun e => returned e = true) log ->
   map what log = map (fun c => SetAppsInCollection (id c) []) l).
Proof.
  revert st. induction l as [|c l IH]; intros st; cbn.
  - split; [constructor | reflexivity].
  - destruct (perform (SetAppsInCollection (id c) []) st) as [[u|] st1].
    + specialize (IH st1).
      destruct (clearEach perform l st1) as [st2 log] eqn:E. cbn in *.
      destruct IH as [IHa IHb]. split.
      * constructor; [exists c; auto|].
        eapply Forall_impl; [|exact IHa].
        intros e (c' & Hc' & He). exists c'. auto.
      * intros Hall. inversion Hall; subst. f_equal. auto.
    + cbn. split.
      * constructor; [exists c; auto | constructor].
      * intros Hall. inversion Hall as [|? ? Hret]; subst. discriminate Hret.
Qed.

Hypothesis SetAppsInCollection_writes :
  forall (i : string) (apps : list Z) (st st' : store) (u : unit),
    perform (SetAppsInCollection i apps) st = (Fulfilled u, st') ->
    userCollections st' = setApps i apps (userCollections st).

Lemma clearEach_effect (l : list SteamCollection.t) (st : store) :
  Forall (fun e => returned e = true) (snd (clearEach perform l st)) ->
  userCollections (fst (clearEach perform l st)) =
  fold_left (fun acc i => setApps i [] acc) (map id l) (userCollections st).
Proof.
  revert st. induction l as [|c l IH]; intros st; cbn; [reflexivity|].
  destruct (perform (SetAppsInCollection (id c) []) st) as [[u|] st1] eqn:Ep.
  - specialize (IH st1).
    destruct (clearEach perform l st1) as [st2 log] eqn:E. cbn in *.
    intros Hall. inversion Hall; subst.
    rewrite IH by assumption.
    now rewrite (SetAppsInCollection_writes _ _ _ _ _ Ep).
  - cbn. intros Hall. inversion Hall as [|? ? Hret]; subst. discriminate Hret.
Qed.

End CollectionFacts.

(** C9.  With the collection store available, every call that
    [clearAllRomMCollections] makes is a [SetAppsInCollection] with the
    empty list on the id of a collection whose name starts with "RomM: ".
    When none of the calls throws, [SetAppsInCollection] writing the apps
    of the collection with the given id and ids being unique, the store
    afterwards shows the same collections, those with the prefix emptied
    and the others as they were. *)
Theorem clearAllRomMCollections_clears_prefixed_only
  (store : Type) (userCollections : store -> list SteamCollection.t)
  (perform : Collections.call -> store -> settled unit * store)
  (st : store) :
  let r := Collections.clearAllRomMCollections userCollections perform (Some st) in
  Forall (fun e => exists c, In c (userCollections st) /\
                             Collections.isRomM c = true /\
                             Collections.what e =
                             Collections.SetAppsInCollection (SteamCollection.id c) [])
         (snd r) /\
  ((forall i apps s s' u,
       perform (Collections.SetAppsInCollection i apps) s = (Fulfilled u, s') ->
       userCollections s' = Collections.setApps i apps (userCollections s)) ->
   NoDup (map SteamCollection.id (userCollections st)) ->
   Forall (fun e => Collections.returned e = true) (snd r) ->
   exists st', fst r = Some st' /\
               userCollections st' = Collections.cleared (userCollections st)).
Proof.
  cbn zeta. unfold Collections.clearAllRomMCollections.
  pose proof (clearEach_calls store perform
                (filter Collections.isRomM (userCollections st)) st) as Hcalls.
  pose proof (fun H => clearEach_effect store userCollections perform H
                (filter Collections.isRomM (userCollections st)) st) as Heff.
  destruct (Collections.clearEach perform
              (filter Collections.isRomM (userCollections st)) st)
    as [st' log] eqn:E.
  cbn in *. destruct Hcalls as [Hcalls _]. split.
  - eapply Forall_impl; [|exact Hcalls].
    intros e (c & Hc & He). apply filter_In in Hc. destruct Hc as [Hc Hr].
    exists c. auto.
  - intros Hwrites ND Hall. exists st'. split; [reflexivity|].
    rewrite (Heff Hwrites Hall), setApps_each.
    unfold Collections.cleared. apply map_ext_in. intros c Hc.
    now rewrite romm_ids.
Qed.

(** Without a collection store nothing is called. *)
Lemma collections_unavailable
  (store : Type) (userCollections : store -> list SteamCollection.t)
  (perform : Collections.call -> store -> settled unit * store)
  (platformAppIds : list (string * list Z)) :
  Collections.clearAllRomMCollections userCollections perform None = (None, []) /\
  Collections.createOrUpdateCollections userCollections perform None platformAppIds
  = (None, []).
Proof. split; reflexivity. Qed.

(** The clearing loop has one [catch] around it: on a store that throws
    for "uc-snes" the loop ends there, and "RomM: Game Boy" keeps its
    apps. *)
Example clearAllRomMCollections_interrupted :
  let r := Collections.clearAllRomMCollections (fun cs => cs)
             (Fixtures.failsOn "uc-snes") (Some Fixtures.library) in
  snd r = [ {| Collections.what := Collections.SetAppsInCollection "uc-snes" [];
               Collections.returned := false |} ] /\
  fst r = Some Fixtures.library.
Proof. split; reflexivity. Qed.

(** C9 at work: of four collections the two named "RomM: ..." are
    emptied; "Favorites" and "RomM Favourites" keep their apps. *)
Lemma clearAllRomMCollections_witness :
  exists st',
    fst (Collections.clearAllRomMCollections (fun cs => cs)
           Fixtures.listPerform (Some Fixtures.library)) = Some st' /\
    st' = Collections.cleared Fixtures.library /\
    map SteamCollection.visibleApps st' = [[10; 20]; []; [101]; []].
Proof.
  destruct (clearAllRomMCollections_clears_prefixed_only
              Fixtures.listStore (fun cs => cs) Fixtures.listPerform
              Fixtures.library) as [_ H].
  destruct H as (st' & E & Hst').
  - intros i apps s s' u Hp. cbn in Hp. now inversion Hp.
  - cbn. repeat constructor; cbn; intuition discriminate.
  - cbn. repeat constructor.
  - exists st'. split; [exact E|]. split; [exact Hst'|].
    rewrite Hst'. reflexivity.
Defined.

Section CreateOrUpdate.
Import SteamCollection Collections.
Variable store : Type.
Variable userCollections : store -> list SteamCollection.t.
Variable perform : call -> store -> settled unit * store.

Lemma forEachPlatform_length (entries : list (string * list Z)) (st : store) :
  List.length (snd (forEachPlatform userCollections perform entries st)) = List.length entries.
Proof.
  revert st. induction entries as [|[platformName appIds] rest IH];
    intros st; cbn; [reflexivity|].
  destruct (perform _ st) as [r st1]. specialize (IH st1).
  destruct (forEachPlatform userCollections perform rest st1) as [st2 log].
  cbn in *. now rewrite IH.
Qed.

Lemma forEachPlatform_nth (entries : list (string * list Z)) (st : store)
  (n : nat) (platformName : string) (appIds : list Z) :
  nth_error entries n = Some (platformName, appIds) ->
  nth_error (map what (snd (forEachPlatform userCollections perform entries st))) n =
  Some (callFor userCollections platformName appIds
          (fst (forEachPlatform userCollections perform (firstn n entries) st))).
Proof.
  revert st n. induction entries as [|[name0 apps0] rest IH];
    intros st n Hn; [destruct n; discriminate|].
  destruct n as [|n]; cbn in Hn.
  - injection Hn as -> ->. cbn.
    destruct (perform _ st) as [r st1].
    destruct (forEachPlatform userCollections perform rest st1) as [st2 log].
    reflexivity.
  - cbn. destruct (perform _ st) as [r st1].
    specialize (IH st1 n Hn).
    destruct (forEachPlatform userCollections perform rest st1) as [st2 log].
    destruct (forEachPlatform userCollections perform (firstn n rest) st1)
      as [st3 log3].
    cbn in *. exact IH.
Qed.

(** The store a run leaves is the store each call left to the next. *)
Lemma forEachPlatform_store (entries : list (string * list Z)) (st : store) :
  fst (forEachPlatform userCollections perform entries st) =
  fold_left (fun s e => snd (perform (callFor userCollections (fst e) (snd e) s) s))
            entries st.
Proof.
  revert st. induction entries as [|[name apps] rest IH]; intros st; cbn;
    [reflexivity|].
  destruct (perform (callFor userCollections name apps st) st) as [r st1].
  specialize (IH st1).
  destruct (forEachPlatform userCollections perform rest st1) as [st2 log].
  cbn in *. exact IH.
Qed.

(** The entry logged for a platform: its call and whether it returned. *)
Lemma forEachPlatform_logged (entries : list (string * list Z)) (st : store)
  (n : nat) (platformName : string) (appIds : list Z) :
  nth_error entries n = Some (platformName, appIds) ->
  let before := fst (forEachPlatform userCollections perform (firstn n entries) st) in
  let c := callFor userCollections platformName appIds before in
  nth_error (snd (forEachPlatform userCollections perform entries st)) n =
  Some {| what := c; returned := isFulfilled (fst (perform c before)) |}.
Proof.
  revert st n. induction entries as [|[name0 apps0] rest IH];
    intros st n Hn; [destruct n; discriminate|].
  destruct n as [|n]; cbn in Hn.
  - injection Hn as -> ->. cbn.
    destruct (perform _ st) as [r st1].
    destruct (forEachPlatform userCollections perform rest st1) as [st2 log].
    reflexivity.
  - cbn. destruct (perform _ st) as [r st1].
    specialize (IH st1 n Hn).
    destruct (forEachPlatform userCollections perform rest st1) as [st2 log].
    destruct (forEachPlatform userCollections perform (firstn n rest) st1)
      as [st3 log3].
    cbn in *. exact IH.
Qed.

Lemma fold_left_firstn_S {A S : Type} (f : S -> A -> S) (l : list A) (n : nat)
  (x : A) (a : S) :
  nth_error l n = Some x ->
  fold_left f (firstn (Datatypes.S n) l) a = f (fold_left f (firstn n l) a) x.
Proof.
  revert n a. induction l as [|y l IH]; intros n a Hn; [destruct n; discriminate|].
  destruct n as [|n]; cbn in Hn.
  - injection Hn as ->. reflexivity.
  - cbn [firstn fold_left]. now apply IH.
Qed.

End CreateOrUpdate.

(** C10.  With the collection store available and whatever its mutators
    do, throwing included, [createOrUpdateCollections] goes through every
    platform of its input, in order, and for each of them makes one call
    and performs it on the store as the platforms before it left it:
    [SetAppsInCollection] on the id of the first collection named
    "RomM: " followed by the platform name when there is one,
    [CreateCollection] under that name otherwise, with the app ids of the
    platform in both cases.  The log has one entry for each platform,
    holding that call and whether it returned; the store the call left,
    thrown or not, is the store the next platform is processed on, and
    the store left by the last call is the store the function leaves. *)
Theorem createOrUpdateCollections_one_call_per_platform
  (store : Type) (userCollections : store -> list SteamCollection.t)
  (perform : Collections.call -> store -> settled unit * store)
  (st : store) (platformAppIds : list (string * list Z)) :
  let decide (s : store) (platformName : string) (appIds : list Z) :=
    let collectionName := ("RomM: " ++ platformName)%string in
    match find (fun c => String.eqb (SteamCollection.displayName c) collectionName)
               (userCollections s) with
    | Some existing =>
        Collections.SetAppsInCollection (SteamCollection.id existing) appIds
    | None => Collections.CreateCollection collectionName appIds
    end in
  let after (n : nat) :=
    fold_left (fun s e => snd (perform (decide s (fst e) (snd e)) s))
              (firstn n platformAppIds) st in
  let r := Collections.createOrUpdateCollections userCollections perform
             (Some st) platformAppIds in
  fst r = Some (after (List.length platformAppIds)) /\
  List.length (snd r) = List.length platformAppIds /\
  forall (n : nat) (platformName : string) (appIds : list Z),
    nth_error platformAppIds n = Some (platformName, appIds) ->
    let c := decide (after n) platformName appIds in
    nth_error (snd r) n =
    Some {| Collections.what := c;
            Collections.returned :=
              Collections.isFulfilled (fst (perform c (after n))) |} /\
    after (S n) = snd (perform c (after n)).
Proof.
  cbn zeta. unfold Collections.createOrUpdateCollections.
  pose proof (forEachPlatform_length store userCollections perform platformAppIds st)
    as Hlen.
  pose proof (forEachPlatform_store store userCollections perform platformAppIds st)
    as Hstore.
  pose proof (forEachPlatform_logged store userCollections perform platformAppIds st)
    as Hlog.
  destruct (Collections.forEachPlatform userCollections perform platformAppIds st)
    as [st' log].
  cbn [fst snd] in *. split; [|split].
  - rewrite firstn_all. f_equal. exact Hstore.
  - exact Hlen.
  - intros n platformName appIds Hn. split.
    + specialize (Hlog n platformName appIds Hn). cbn zeta in Hlog.
      rewrite forEachPlatform_store in Hlog. exact Hlog.
    + exact (fold_left_firstn_S _ platformAppIds n (platformName, appIds) st Hn).
Qed.

(** C10 at work, on a store that throws for "uc-snes": the update for
    SNES is made and throws, the create for N64 is made all the same and
    returns, and the store the function leaves holds the new collection
    and the emptied one for Game Boy. *)
Lemma createOrUpdateCollections_witness :
  let r := Collections.createOrUpdateCollections (fun cs => cs)
             (Fixtures.failsOn "uc-snes") (Some Fixtures.library)
             Fixtures.platformAppIds in
  nth_error (snd r) 0 =
  Some {| Collections.what := Collections.SetAppsInCollection "uc-snes" [101; 102];
          Collections.returned := false |} /\
  nth_error (snd r) 1 =
  Some {| Collections.what := Collections.CreateCollection "RomM: N64" [301];
          Collections.returned := true |} /\
  option_map (map SteamCollection.visibleApps) (fst r)
  = Some [[10; 20]; [101; 102; 103]; [101]; []; [301]].
Proof.
  pose proof (createOrUpdateCollections_one_call_per_platform
                Fixtures.listStore (fun cs => cs) (Fixtures.failsOn "uc-snes")
                Fixtures.library Fixtures.platformAppIds) as H.
  cbn zeta in *. destruct H as (Hstore & _ & Hnth).
  split; [|split].
  - exact (proj1 (Hnth 0%nat "SNES"%string [101; 102] eq_refl)).
  - exact (proj1 (Hnth 1%nat "N64"%string [301] eq_refl)).
  - exact (f_equal (option_map (map SteamCollection.visibleApps)) Hstore).
Defined.

Example createOrUpdateCollections_broken_store :
  map Collections.what
    (snd (Collections.createOrUpdateCollections (fun cs => cs)
            Fixtures.brokenPerform (Some Fixtures.library)
            Fixtures.platformAppIds))
  = [ Collections.SetAppsInCollection "uc-snes" [101; 102];
      Collections.CreateCollection "RomM: N64" [301];
      Collections.SetAppsInCollection "uc-gb" [] ].
Proof. reflexivity. Qed.

Example createOrUpdateCollections_one_failure :
  let r := Collections.createOrUpdateCollections (fun cs => cs)
             (Fixtures.failsOn "uc-snes") (Some Fixtures.library)
             Fixtures.platformAppIds in
  map Collections.returned (snd r) = [false; true; true] /\
  map SteamCollection.visibleApps
      (match fst r with Some cs => cs | None => [] end)
  = [[10; 20]; [101; 102; 103]; [101]; []; [301]].
Proof. split; reflexivity. Qed.

Example createOrUpdateCollections_list_store :
  map SteamCollection.visibleApps
    (match fst (Collections.createOrUpdateCollections (fun cs => cs)
                  Fixtures.listPerform (Some Fixtures.library)
                  Fixtures.platformAppIds) with
     | Some cs => cs
     | None => []
     end)
  = [[10; 20]; [101; 102]; [101]; []; [301]].
Proof. reflexivity. Qed.

(* ================================================================== *)
(** * Part III: further properties of the code                         *)
(* ================================================================== *)

(** ** The save-sync panel: settings, mount, reloads *)

Section SaveSyncPanelMore.
Import SaveSyncSettings.
Variable B : Type.
Variable respond : forall c : request, B -> settled (response c) * B.

(** X1.  [handleSettingChange] writes the merged settings to the panel
    before it asks the backend: when [updateSaveSyncSettings], its one
    request, is issued, the panel has already been given the merged
    record, which is the record submitted.  It never takes them back:
    whatever the request answers, a rejection included, the panel ends up
    holding the merged record.  The fields the change does not name are
    those held before.  With no settings loaded the handler does
    nothing. *)
Theorem handleSettingChange_keeps_optimistic_update
  (b : B) (st : State) (s : SaveSyncSettingsType.t)
  (partial : SaveSyncSettingsType.partial) :
  let updated := SaveSyncSettingsType.spread s partial in
  let o := run respond (handleSettingChange (Some s) partial) st b in
  let o' := run respond (handleSettingChange None partial) st b in
  pendingStates respond (handleSettingChange (Some s) partial) st b
  = [(updateSaveSyncSettings updated, setSettings (Some updated) st)] /\
  requests o = [updateSaveSyncSettings updated] /\
  settings (ui o) = Some updated /\
  conflicts (ui o) = conflicts st /\ failedOps (ui o) = failedOps st /\
  (SaveSyncSettingsType.conflict_mode' partial = None ->
   SaveSyncSettingsType.conflict_mode updated = SaveSyncSettingsType.conflict_mode s) /\
  (SaveSyncSettingsType.sync_before_launch' partial = None ->
   SaveSyncSettingsType.sync_before_launch updated
   = SaveSyncSettingsType.sync_before_launch s) /\
  (SaveSyncSettingsType.sync_after_exit' partial = None ->
   SaveSyncSettingsType.sync_after_exit updated
   = SaveSyncSettingsType.sync_after_exit s) /\
  requests o' = [] /\ ui o' = st /\ backend o' = b.
Proof.
  cbn zeta. cbn.
  destruct (respond (updateSaveSyncSettings _) b) as [r b']; cbn.
  repeat split; try reflexivity; intros ->; reflexivity.
Qed.

(** X2.  The mount effect always makes its three requests, in the order
    settings, conflicts, queue, and each view depends on its own request
    only: it takes the value the request was fulfilled with and stays as
    it was when the request was rejected, whatever happened to the other
    two. *)
Theorem onMount_loads_each_view_on_its_own (b : B) (st : State) :
  let o := run respond onMount st b in
  let r1 := respond getSaveSyncSettings b in
  let r2 := respond getPendingConflicts (snd r1) in
  let r3 := respond getOfflineQueue (snd r2) in
  requests o = [getSaveSyncSettings; getPendingConflicts; getOfflineQueue] /\
  settings (ui o) =
    match fst r1 with Fulfilled s => Some s | Rejected => settings st end /\
  conflicts (ui o) =
    match fst r2 with Fulfilled l => l | Rejected => conflicts st end /\
  failedOps (ui o) =
    match fst r3 with Fulfilled q => q | Rejected => failedOps st end.
Proof.
  cbn zeta. unfold onMount, loadConflicts, loadFailedOps. cbn.
  destruct (respond getSaveSyncSettings b) as [[s|] b1]; cbn;
    destruct (respond getPendingConflicts b1) as [[l|] b2]; cbn;
    destruct (respond getOfflineQueue b2) as [[q|] b3]; cbn;
    repeat split.
Qed.

(** X3.  After a pass that completed, [handleSyncAll] reloads the queue
    view whatever the conflict count was and whatever became of the
    reload of the conflicts: the view takes what [getOfflineQueue] is
    fulfilled with and stays as it was when that request is rejected.  The
    settings held by the panel are not touched. *)
Theorem handleSyncAll_reloads_queue (b : B) (st : State) :
  let o := run respond handleSyncAll st b in
  settings (ui o) = settings st /\
  match respond syncAllSaves b with
  | (Fulfilled result, b1) =>
      let b2 := if SyncAllResult.conflicts result >? 0
                then snd (respond getPendingConflicts b1) else b1 in
      In getOfflineQueue (requests o) /\
      failedOps (ui o) =
        match fst (respond getOfflineQueue b2) with
        | Fulfilled q => q
        | Rejected => failedOps st
        end
  | (Rejected, _) => ~ In getOfflineQueue (requests o)
  end.
Proof.
  cbn zeta. unfold handleSyncAll, loadConflicts, loadFailedOps. cbn.
  destruct (respond syncAllSaves b) as [[result|] b1]; cbn.
  - destruct (SyncAllResult.conflicts result >? 0); cbn.
    + destruct (respond getPendingConflicts b1) as [[l|] b2]; cbn;
        destruct (respond getOfflineQueue b2) as [[q|] b3]; cbn;
        repeat split; right; right; left; reflexivity.
    + destruct (respond getOfflineQueue b1) as [[q|] b2]; cbn;
        repeat split; right; left; reflexivity.
  - split; [reflexivity|]. intros [H|[]]. discriminate H.
Qed.

End SaveSyncPanelMore.

(** X1 at work: the backend is out of reach and the toggle stays
    switched. *)
Lemma handleSettingChange_witness :
  let o := run Fixtures.unreachable
             (SaveSyncSettings.handleSettingChange (Some Fixtures.defaults)
                {| SaveSyncSettingsType.sync_before_launch' := Some false;
                   SaveSyncSettingsType.sync_after_exit' := None;
                   SaveSyncSettingsType.conflict_mode' := None |})
             Fixtures.busyState tt in
  option_map SaveSyncSettingsType.sync_before_launch (SaveSyncSettings.settings (ui o)) = Some false /\
  option_map SaveSyncSettingsType.conflict_mode (SaveSyncSettings.settings (ui o))
  = Some "newest_wins"%string.
Proof.
  destruct (handleSettingChange_keeps_optimistic_update unit Fixtures.unreachable tt Fixtures.busyState
              Fixtures.defaults
              {| SaveSyncSettingsType.sync_before_launch' := Some false;
                 SaveSyncSettingsType.sync_after_exit' := None;
                 SaveSyncSettingsType.conflict_mode' := None |})
    as (_ & _ & Hset & _ & _ & Hmode & _).
  cbn zeta in *. rewrite Hset. cbn [option_map]. split.
  - reflexivity.
  - rewrite (Hmode eq_refl). reflexivity.
Defined.

(** ** Row keys and busy rows *)

Section RowKeys.
Import Ascii SaveSyncSettings SaveSyncSettingsView.

Lemma string_of_uint_no_colon (d : Decimal.uint) :
  hasChar ":"%char (NilEmpty.string_of_uint d) = false.
Proof. induction d; cbn; auto. Qed.

Lemma String_of_number_no_colon (n : Z) :
  hasChar ":"%char (String_of_number n) = false.
Proof.
  unfold String_of_number, NilZero.string_of_int, NilZero.string_of_uint.
  destruct (Z.to_int n) as [d|d]; destruct d; cbn;
    try reflexivity; apply string_of_uint_no_colon.
Qed.

Lemma to_int_proper (n : Z) :
  Z.to_int n <> Decimal.Pos Decimal.Nil /\ Z.to_int n <> Decimal.Neg Decimal.Nil.
Proof.
  destruct n as [|p|p]; cbn; split; try discriminate;
    intros E; injection E as E; now apply DecimalPos.Unsigned.to_uint_nonnil in E.
Qed.

Lemma String_of_number_inj (n n' : Z) :
  String_of_number n = String_of_number n' -> n = n'.
Proof.
  unfold String_of_number. intros E.
  apply DecimalZ.to_int_inj.
  destruct (to_int_proper n) as [Hp Hn], (to_int_proper n') as [Hp' Hn'].
  pose proof (NilZero.isi (Z.to_int n) Hp Hn) as H.
  rewrite E, (NilZero.isi (Z.to_int n') Hp' Hn') in H.
  now injection H.
Qed.

(** Two strings cut at their first colon. *)
Lemma split_at_colon (s1 s2 f1 f2 : string) :
  hasChar ":"%char s1 = false -> hasChar ":"%char s2 = false ->
  (s1 ++ ":" ++ f1 = s2 ++ ":" ++ f2)%string ->
  s1 = s2 /\ f1 = f2.
Proof.
  revert s2. induction s1 as [|a s1 IH]; intros [|a2 s2]; cbn; intros H1 H2 E.
  - injection E as E. auto.
  - injection E as Ea E. subst a2. cbn in H2. discriminate.
  - injection E as Ea E. subst a. cbn in H1. discriminate.
  - injection E as Ea E. subst a2.
    apply orb_false_iff in H1. apply orb_false_iff in H2.
    destruct (IH s2 (proj2 H1) (proj2 H2) E) as [-> ->]. auto.
Qed.

Lemma conflictRowKey_iff (c c' : PendingConflict.t) :
  conflictRowKey c = conflictRowKey c' <-> conflictKey c = conflictKey c'.
Proof.
  unfold conflictRowKey, conflictKey. split; intros E.
  - apply split_at_colon in E; try apply String_of_number_no_colon.
    destruct E as [En Ef]. apply String_of_number_inj in En. congruence.
  - injection E as -> ->. reflexivity.
Qed.

Lemma itemRowKey_iff (f f' : OfflineQueueItem.t) :
  itemRowKey f = itemRowKey f' <-> itemKey f = itemKey f'.
Proof.
  unfold itemRowKey, itemKey. split; intros E.
  - apply split_at_colon in E; try apply String_of_number_no_colon.
    destruct E as [En Ef]. apply String_of_number_inj in En. congruence.
  - injection E as -> ->. reflexivity.
Qed.

(** X4.  The key of a row, "<rom_id>:<filename>", names one pair of rom
    id and file name: two conflicts, or two failed operations, have the
    same row key exactly when they agree on both, also when a file name
    holds colons or digits. *)
Theorem rowKey_names_one_entry :
  (forall c c' : PendingConflict.t,
      conflictRowKey c = conflictRowKey c' <-> conflictKey c = conflictKey c') /\
  (forall f f' : OfflineQueueItem.t,
      itemRowKey f = itemRowKey f' <-> itemKey f = itemKey f').
Proof. split; [exact conflictRowKey_iff | exact itemRowKey_iff]. Qed.

Variable B : Type.
Variable respond : forall c : request, B -> settled (response c) * B.

Lemma isResolving_iff (st : State) (c c' : PendingConflict.t) :
  resolving st = Some (conflictRowKey c) ->
  (isResolving st c' = true <-> conflictKey c' = conflictKey c).
Proof.
  intros E. unfold isResolving. rewrite E, String.eqb_eq.
  rewrite <- (conflictRowKey_iff c' c). split; congruence.
Qed.

End RowKeys.

Section BusyRows.
Import SaveSyncSettings SaveSyncSettingsView.
Variable B : Type.
Variable respond : forall c : request, B -> settled (response c) * B.

Lemma isRetrying_iff (st : State) (item item' : OfflineQueueItem.t) :
  retrying st = Some (itemRowKey item) ->
  (isRetrying st item' = true <-> itemKey item' = itemKey item).
Proof.
  intros E. unfold isRetrying. rewrite E, String.eqb_eq.
  rewrite <- (itemRowKey_iff item' item). split; congruence.
Qed.

(** X5.  The busy marker of the conflict rows is one cell, and so is
    that of the rows of failed operations.  When [handleResolve] issues
    its request, the rows disabled are exactly those with the rom id and
    file name of its conflict.  When a second [handleResolve], for
    another conflict, is started while the first is awaited, the rows
    disabled are exactly those of the second conflict: the rows of the
    first are enabled although its request is pending.  When the first
    then settles, whatever the reply, the handler is through and no row
    is disabled, although the request of the second is still pending.
    [handleRetry] and "Retry Now" behave alike. *)
Theorem busy_marker_is_one_cell (st : State)
  (reply : forall c : request, settled (response c))
  (c1 c2 : PendingConflict.t) (res1 res2 : Transfer)
  (f1 f2 : OfflineQueueItem.t) :
  (let first := upToAwait (handleResolve c1 res1) st in
   let second := upToAwait (handleResolve c2 res2) (fst first) in
   let done := settle reply (snd first) (fst second) in
   (exists k, snd first
              = Awaiting (resolveConflict (PendingConflict.rom_id c1)
                            (PendingConflict.filename c1) res1) k) /\
   (forall c, isResolving (fst first) c = true <-> conflictKey c = conflictKey c1) /\
   (exists k, snd second
              = Awaiting (resolveConflict (PendingConflict.rom_id c2)
                            (PendingConflict.filename c2) res2) k) /\
   (forall c, isResolving (fst second) c = true <-> conflictKey c = conflictKey c2) /\
   (conflictKey c1 <> conflictKey c2 -> isResolving (fst second) c1 = false) /\
   snd done = Finished /\
   (forall c, isResolving (fst done) c = false)) /\
  (let first := upToAwait (handleRetry f1) st in
   let second := upToAwait (handleRetry f2) (fst first) in
   let done := settle reply (snd first) (fst second) in
   (exists k, snd first
              = Awaiting (retryFailedSync (OfflineQueueItem.rom_id f1)
                            (OfflineQueueItem.filename f1)) k) /\
   (forall f, isRetrying (fst first) f = true <-> itemKey f = itemKey f1) /\
   (exists k, snd second
              = Awaiting (retryFailedSync (OfflineQueueItem.rom_id f2)
                            (OfflineQueueItem.filename f2)) k) /\
   (forall f, isRetrying (fst second) f = true <-> itemKey f = itemKey f2) /\
   (itemKey f1 <> itemKey f2 -> isRetrying (fst second) f1 = false) /\
   snd done = Finished /\
   (forall f, isRetrying (fst done) f = false)).
Proof.
  split; cbn zeta.
  - unfold handleResolve. cbn [upToAwait seq settle fst snd].
    split; [eexists; reflexivity|].
    split; [intros c; apply isResolving_iff; reflexivity|].
    split; [eexists; reflexivity|].
    assert (Hsecond : forall c,
               isResolving (setResolving (Some (conflictRowKey c2))
                              (setResolving (Some (conflictRowKey c1)) st)) c = true
               <-> conflictKey c = conflictKey c2)
      by (intros c; apply isResolving_iff; reflexivity).
    split; [exact Hsecond|].
    split.
    + intros Hne. destruct (isResolving _ c1) eqn:E; [|reflexivity].
      exfalso. apply Hne. now apply Hsecond.
    + destruct (reply _) as [u|]; cbn [upToAwait seq settle fst snd];
        split; reflexivity.
  - unfold handleRetry. cbn [upToAwait seq settle fst snd].
    split; [eexists; reflexivity|].
    split; [intros f; apply isRetrying_iff; reflexivity|].
    split; [eexists; reflexivity|].
    assert (Hsecond : forall f,
               isRetrying (setRetrying (Some (itemRowKey f2))
                             (setRetrying (Some (itemRowKey f1)) st)) f = true
               <-> itemKey f = itemKey f2)
      by (intros f; apply isRetrying_iff; reflexivity).
    split; [exact Hsecond|].
    split.
    + intros Hne. destruct (isRetrying _ f1) eqn:E; [|reflexivity].
      exfalso. apply Hne. now apply Hsecond.
    + destruct (reply _) as [[|]|]; cbn [upToAwait seq settle fst snd];
        split; reflexivity.
Qed.

(** X6.  From the first request of [handleSyncAll] to its last, the
    panel is rendered with [syncing] set, which disables "Sync All Saves
    Now"; the first request is [syncAllSaves], awaited with an empty
    status line. *)
Theorem syncing_set_throughout_the_pass (b : B) (st : State) :
  let shown := pendingStates respond handleSyncAll st b in
  Forall (fun p => syncing (snd p) = true) shown /\
  map fst shown = requests (run respond handleSyncAll st b) /\
  (exists first rest, shown = (syncAllSaves, first) :: rest /\
                      syncStatus first = ""%string).
Proof.
  cbn zeta. unfold handleSyncAll, loadConflicts, loadFailedOps. cbn.
  destruct (respond syncAllSaves b) as [[result|] b1]; cbn.
  - destruct (SyncAllResult.conflicts result >? 0); cbn.
    + destruct (respond getPendingConflicts b1) as [[l|] b2]; cbn;
        destruct (respond getOfflineQueue b2) as [[q|] b3]; cbn;
        (split; [repeat constructor|]; split; [reflexivity|]);
        do 2 eexists; split; reflexivity.
    + destruct (respond getOfflineQueue b1) as [[q|] b2]; cbn;
        (split; [repeat constructor|]; split; [reflexivity|]);
        do 2 eexists; split; reflexivity.
  - split; [repeat constructor|]. split; [reflexivity|].
    do 2 eexists; split; reflexivity.
Qed.

End BusyRows.

(** X5 at work: a resolve for rom 7 is pending when one for rom 9 is
    started; the row of rom 7 is enabled again, and so is the row of the
    failed upload for rom 7 when a retry for rom 8 is started. *)
Lemma busy_marker_witness :
  SaveSyncSettingsView.isResolving
    (fst (upToAwait (SaveSyncSettings.handleResolve Fixtures.conflict9 download)
            (fst (upToAwait (SaveSyncSettings.handleResolve Fixtures.conflict7 upload)
                    Fixtures.busyState))))
    Fixtures.conflict7 = false /\
  SaveSyncSettingsView.isRetrying
    (fst (upToAwait (SaveSyncSettings.handleRetry Fixtures.item8)
            (fst (upToAwait (SaveSyncSettings.handleRetry Fixtures.item7)
                    Fixtures.busyState))))
    Fixtures.item7 = false.
Proof.
  destruct (busy_marker_is_one_cell Fixtures.busyState
              (fun c => fst (Fixtures.agreeable c tt))
              Fixtures.conflict7 Fixtures.conflict9 upload download
              Fixtures.item7 Fixtures.item8) as [Hresolve Hretry].
  cbn zeta in *.
  destruct Hresolve as (_ & _ & _ & _ & Hrow & _).
  destruct Hretry as (_ & _ & _ & _ & Hitem & _).
  split; [apply Hrow | apply Hitem]; discriminate.
Defined.

(** ** Time ago *)

Section TimeAgo.
Import SaveSyncSettingsView.

Lemma minutes_bounds (d lo hi : Z) :
  lo * 60000 <= d < hi * 60000 -> lo <= d / 60000 < hi.
Proof.
  intros [Hlo Hhi]. split.
  - apply Z.div_le_lower_bound; lia.
  - apply Z.div_lt_upper_bound; lia.
Qed.

(** X7.  [formatTimeAgo] by the age in milliseconds: "just now" below one
    minute, a time in the future included; whole minutes from 1 to 59
    below one hour; whole hours from 1 to 23 below one day; whole days
    from there on.  The number printed is the age divided by the length
    of the unit, rounded down. *)
Theorem formatTimeAgo_by_age (now time : Z) :
  let age := now - time in
  (age < 60000 -> formatTimeAgo now (Some time) = "just now"%string) /\
  (60000 <= age < 3600000 ->
   formatTimeAgo now (Some time)
   = (String_of_number (age / 60000) ++ "m ago")%string /\
   1 <= age / 60000 <= 59) /\
  (3600000 <= age < 86400000 ->
   formatTimeAgo now (Some time)
   = (String_of_number (age / 3600000) ++ "h ago")%string /\
   1 <= age / 3600000 <= 23) /\
  (86400000 <= age ->
   formatTimeAgo now (Some time)
   = (String_of_number (age / 86400000) ++ "d ago")%string /\
   1 <= age / 86400000).
Proof.
  cbn zeta. unfold formatTimeAgo. set (age := now - time).
  assert (Hh : age / 60000 / 60 = age / 3600000)
    by (rewrite Z.div_div by lia; reflexivity).
  assert (Hd : age / 3600000 / 24 = age / 86400000)
    by (rewrite Z.div_div by lia; reflexivity).
  split; [|split; [|split]]; intros H.
  - assert (age / 60000 < 1) by (apply Z.div_lt_upper_bound; lia).
    destruct (Z.ltb_spec (age / 60000) 1); [reflexivity | lia].
  - pose proof (minutes_bounds age 1 60 ltac:(lia)) as Hm.
    split; [|lia].
    destruct (Z.ltb_spec (age / 60000) 1); [lia|].
    destruct (Z.ltb_spec (age / 60000) 60); [reflexivity | lia].
  - pose proof (minutes_bounds age 60 1440 ltac:(lia)) as Hm.
    assert (age / 3600000 < 24) by (apply Z.div_lt_upper_bound; lia).
    assert (1 <= age / 3600000) by (apply Z.div_le_lower_bound; lia).
    split; [|lia].
    destruct (Z.ltb_spec (age / 60000) 1); [lia|].
    destruct (Z.ltb_spec (age / 60000) 60); [lia|].
    rewrite Hh.
    destruct (Z.ltb_spec (age / 3600000) 24); [reflexivity | lia].
  - assert (1440 <= age / 60000) by (apply Z.div_le_lower_bound; lia).
    assert (24 <= age / 3600000) by (apply Z.div_le_lower_bound; lia).
    assert (1 <= age / 86400000) by (apply Z.div_le_lower_bound; lia).
    split; [|lia].
    destruct (Z.ltb_spec (age / 60000) 1); [lia|].
    destruct (Z.ltb_spec (age / 60000) 60); [lia|].
    rewrite Hh, Hd.
    destruct (Z.ltb_spec (age / 3600000) 24); [lia | reflexivity].
Qed.

End TimeAgo.

(** X7 at work: ninety seconds, ninety minutes, thirty hours. *)
Lemma formatTimeAgo_witness :
  SaveSyncSettingsView.formatTimeAgo 1000090000 (Some 1000000000)
  = "1m ago"%string /\
  SaveSyncSettingsView.formatTimeAgo 1005400000 (Some 1000000000)
  = "1h ago"%string /\
  SaveSyncSettingsView.formatTimeAgo 1108000000 (Some 1000000000)
  = "1d ago"%string.
Proof.
  split; [|split].
  - apply (proj1 (proj2 (formatTimeAgo_by_age 1000090000 1000000000))). lia.
  - apply (proj1 (proj2 (proj2 (formatTimeAgo_by_age 1005400000 1000000000)))). lia.
  - apply (proj2 (proj2 (proj2 (formatTimeAgo_by_age 1108000000 1000000000)))). lia.
Defined.

Example formatTimeAgo_edges :
  SaveSyncSettingsView.formatTimeAgo 1000 (Some 5000) = "just now"%string /\
  SaveSyncSettingsView.formatTimeAgo 1000 None = "NaNd ago"%string /\
  SaveSyncSettingsView.formatTimeAgo 3599999 (Some 0) = "59m ago"%string /\
  SaveSyncSettingsView.formatTimeAgo 3600000 (Some 0) = "1h ago"%string.
Proof. repeat split. Qed.

(** ** The platforms panel: mount and the shape of the list *)

Section PlatformsPanelMore.
Import PlatformSyncSetting PlatformSync.
Variable B : Type.
Variable respond : forall c : request, B -> settled (response c) * B.

(** X8.  The mount effect of the platforms panel makes one request and
    always ends with [loading] off.  The platforms are taken over only
    from a reply that is fulfilled with [success] set; a reply with
    [success] unset is handled like a rejected request: the error flag is
    raised and the list is left as it was. *)
Theorem platforms_onMount_outcomes (b : B) (st : State) :
  let o := run respond onMount st b in
  requests o = [getPlatforms] /\
  loading (ui o) = false /\
  match fst (respond getPlatforms b) with
  | Fulfilled (true, result_platforms) =>
      platforms (ui o) = result_platforms /\ error (ui o) = error st
  | Fulfilled (false, _) =>
      platforms (ui o) = platforms st /\ error (ui o) = true
  | Rejected =>
      platforms (ui o) = platforms st /\ error (ui o) = true
  end.
Proof.
  cbn zeta. unfold onMount. cbn.
  destruct (respond getPlatforms b) as [[[[|] ps]|] b']; cbn; repeat split.
Qed.

Lemma map_toggle_shape (id0 : Z) (v : bool) (ps : list PlatformSyncSetting.t) :
  map (fun p => (id p, name p, rom_count p))
      (map (fun p => if id p =? id0 then with_sync_enabled p v else p) ps)
  = map (fun p => (id p, name p, rom_count p)) ps.
Proof.
  rewrite map_map. apply map_ext. intros p.
  destruct (id p =? id0); reflexivity.
Qed.

(** X9.  Whatever the backend answers, [handleToggle] and [handleSetAll]
    leave the list of platforms with the same entries in the same order
    as far as id, name and rom count go: they write [sync_enabled] and
    nothing else.  When the request is fulfilled, the entries with the
    toggled id show the requested value and the other entries are as
    before; after a fulfilled [handleSetAll] every entry shows the
    requested value. *)
Theorem platform_handlers_write_the_flag_only
  (b : B) (st : State) (id0 : Z) (enabled : bool) :
  let shape := map (fun p => (id p, name p, rom_count p)) in
  let o1 := run respond (handleToggle id0 enabled) st b in
  let o2 := run respond (handleSetAll (platforms st) enabled) st b in
  shape (platforms (ui o1)) = shape (platforms st) /\
  shape (platforms (ui o2)) = shape (platforms st) /\
  (forall u, fst (respond (savePlatformSync id0 enabled) b) = Fulfilled u ->
     Forall2 (fun p p' => (id p = id0 -> p' = with_sync_enabled p enabled) /\
                          (id p <> id0 -> p' = p))
             (platforms st) (platforms (ui o1))) /\
  (forall u, fst (respond (setAllPlatformsSync enabled) b) = Fulfilled u ->
     Forall (fun p' => sync_enabled p' = enabled) (platforms (ui o2))).
Proof.
  cbn zeta. unfold handleToggle, handleSetAll. cbn.
  destruct (respond (savePlatformSync id0 enabled) b) as [r1 b1].
  destruct (respond (setAllPlatformsSync enabled) b) as [r2 b2].
  cbn [fst]. split; [|split; [|split]].
  - destruct r1; cbn; rewrite ?map_toggle_shape; reflexivity.
  - destruct r2; cbn.
    + rewrite map_map. reflexivity.
    + rewrite map_copy. reflexivity.
  - intros u ->. cbn.
    induction (platforms st) as [|p ps IH]; cbn; constructor; [|exact IH].
    destruct (Z.eqb_spec (id p) id0); split; intros; congruence.
  - intros u ->. cbn.
    induction (platforms st) as [|p ps IH]; cbn; constructor; [reflexivity | exact IH].
Qed.

End PlatformsPanelMore.

(** X9 at work: the backend accepts; SNES is switched on and nothing
    else changes, and "Enable All" leaves every platform enabled. *)
Lemma platform_handlers_witness :
  let o1 := run MoreFixtures.platformsReachable (PlatformSync.handleToggle 2 true)
              Fixtures.platformsShown tt in
  let o2 := run MoreFixtures.platformsReachable
              (PlatformSync.handleSetAll Fixtures.somePlatforms true)
              Fixtures.platformsShown tt in
  Forall2 (fun p p' =>
             (PlatformSyncSetting.id p = 2 ->
              p' = PlatformSyncSetting.with_sync_enabled p true) /\
             (PlatformSyncSetting.id p <> 2 -> p' = p))
          Fixtures.somePlatforms (PlatformSync.platforms (ui o1)) /\
  Forall (fun p' => PlatformSyncSetting.sync_enabled p' = true)
         (PlatformSync.platforms (ui o2)).
Proof.
  destruct (platform_handlers_write_the_flag_only unit
              MoreFixtures.platformsReachable tt Fixtures.platformsShown 2 true)
    as (_ & _ & Htoggle & Hall).
  split; [exact (Htoggle tt eq_refl) | exact (Hall tt eq_refl)].
Defined.

(** ** The connection settings form *)

Section SettingsForm.
Import Settings.
Variable B : Type.
Variable respond : forall c : request, B -> settled (response c) * B.

(** X10.  "Save Settings", "Test Connection" and "Sync Library" behave
    alike: the one request is awaited with [loading] set and the status
    line empty; afterwards [loading] is off, the status line shows the
    message of the reply or, when the request was rejected, the fallback
    text of that button, and the three text fields are untouched. *)
Theorem settings_buttons_outcomes (b : B) (st : State) (u n p : string) :
  let busy := setStatus "" (setLoading true st) in
  let after (h : handler) := ui (run respond h st b) in
  let kept (s : State) :=
    url s = url st /\ username s = username st /\ password s = password st /\
    loading s = false in
  (pendingStates respond (handleSave u n p) st b = [(saveSettings u n p, busy)] /\
   kept (after (handleSave u n p)) /\
   status (after (handleSave u n p)) =
     match fst (respond (saveSettings u n p) b) with
     | Fulfilled message => message
     | Rejected => "Failed to save settings"%string
     end) /\
  (pendingStates respond handleTest st b = [(testConnection, busy)] /\
   kept (after handleTest) /\
   status (after handleTest) =
     match fst (respond testConnection b) with
     | Fulfilled message => message
     | Rejected => "Connection test failed"%string
     end) /\
  (pendingStates respond handleSync st b = [(startSync, busy)] /\
   kept (after handleSync) /\
   status (after handleSync) =
     match fst (respond startSync b) with
     | Fulfilled message => message
     | Rejected => "Failed to start sync"%string
     end).
Proof.
  cbn zeta. unfold handleSave, handleTest, handleSync. cbn.
  destruct (respond (saveSettings u n p) b) as [[m1|] b1];
    destruct (respond testConnection b) as [[m2|] b2];
    destruct (respond startSync b) as [[m3|] b3]; cbn; repeat split.
Qed.

(** X11.  Pressing "Save Settings" on the form as the mount effect left
    it submits the loaded url and user name and, as password, the masked
    password the backend sent ([romm_pass_masked]); when the settings
    could not be loaded it submits three empty strings. *)
Theorem save_after_mount_submits_what_was_loaded (b : B) :
  let o1 := run respond onMount initialState b in
  let form := ui o1 in
  let o2 := run respond (handleSave (url form) (username form) (password form))
              form (backend o1) in
  requests o1 = [getSettings] /\
  match fst (respond getSettings b) with
  | Fulfilled s =>
      requests o2 = [saveSettings (PluginSettings.romm_url s)
                       (PluginSettings.romm_user s)
                       (PluginSettings.romm_pass_masked s)]
  | Rejected =>
      requests o2 = [saveSettings ""%string ""%string ""%string]
  end.
Proof.
  cbn zeta. unfold onMount. cbn.
  destruct (respond getSettings b) as [[s|] b1]; cbn;
    (split; [reflexivity|]); unfold handleSave; cbn;
    destruct (respond (saveSettings _ _ _) b1) as [[m|] b2]; reflexivity.
Qed.

End SettingsForm.

(** ** Steam collections: one platform, batches, repeated runs *)

Section CollectionLists.
Import SteamCollection Collections CollectionLaws.

Lemma prefix_RomM (platformName : string) :
  String.prefix "RomM: " ("RomM: " ++ platformName)%string = true.
Proof. cbn. now destruct platformName. Qed.

Lemma RomM_name_inj (n n' : string) :
  ("RomM: " ++ n)%string = ("RomM: " ++ n')%string -> n = n'.
Proof. cbn. intros E. now injection E. Qed.

Lemma collectionOf_Some (cs : list SteamCollection.t) (n : string)
  (c : SteamCollection.t) :
  collectionOf cs n = Some c ->
  In c cs /\ displayName c = ("RomM: " ++ n)%string /\ isRomM c = true.
Proof.
  unfold collectionOf. intros E. apply find_some in E. destruct E as [Hin E].
  apply String.eqb_eq in E. repeat split; auto.
  unfold isRomM. rewrite E. apply prefix_RomM.
Qed.

Lemma collectionOf_setApps (cs : list SteamCollection.t) (n i : string)
  (apps : list Z) :
  collectionOf (setApps i apps cs) n =
  option_map (fun c => if String.eqb (id c) i then with_visibleApps c apps else c)
             (collectionOf cs n).
Proof.
  unfold collectionOf, setApps. generalize ("RomM: " ++ n)%string as name.
  intros name. induction cs as [|c cs IH]; cbn; [reflexivity|].
  destruct (String.eqb (id c) i) eqn:Ei; cbn;
    destruct (String.eqb (displayName c) name); cbn;
    rewrite ?Ei; auto.
Qed.

Lemma collectionOf_app (cs : list SteamCollection.t) (c : SteamCollection.t)
  (n : string) :
  collectionOf (cs ++ [c]) n =
  match collectionOf cs n with
  | Some x => Some x
  | None => if String.eqb (displayName c) ("RomM: " ++ n) then Some c else None
  end.
Proof.
  unfold collectionOf. generalize ("RomM: " ++ n)%string as name.
  intros name. induction cs as [|x cs IH]; cbn; [reflexivity|].
  destruct (String.eqb (displayName x) name); auto.
Qed.

Lemma setApps_ids (i : string) (apps : list Z) (cs : list SteamCollection.t) :
  map id (setApps i apps cs) = map id cs.
Proof.
  unfold setApps. rewrite map_map. apply map_ext. intros c.
  destruct (String.eqb (id c) i); reflexivity.
Qed.

Lemma setApps_other (i : string) (apps : list Z) (cs : list SteamCollection.t)
  (x : SteamCollection.t) :
  In x cs -> id x <> i -> In x (setApps i apps cs).
Proof.
  intros Hin Hne. unfold setApps. apply in_map_iff. exists x.
  split; [|exact Hin].
  destruct (String.eqb_spec (id x) i); [contradiction | reflexivity].
Qed.

Lemma NoDup_snoc {A : Type} (l : list A) (a : A) :
  NoDup l -> ~ In a l -> NoDup (l ++ [a]).
Proof.
  induction l as [|x l IH]; cbn; intros ND Hnot.
  - constructor; [intros [] | constructor].
  - inversion ND as [|? ? Hx ND']; subst. constructor.
    + intros Hin. apply in_app_or in Hin. destruct Hin as [Hin|[E|[]]].
      * contradiction.
      * apply Hnot. now left.
    + apply IH; [exact ND'|]. intros Hin. apply Hnot. now right.
Qed.

Lemma Forall2_map_In {A : Type} (R : A -> A -> Prop) (f : A -> A) (l : list A) :
  (forall x, In x l -> R x (f x)) -> Forall2 R l (map f l).
Proof.
  induction l as [|a l IH]; cbn; intros H; constructor; auto.
Qed.

End CollectionLists.

Section CollectionRuns.
Import SteamCollection Collections CollectionLaws.
Variable store : Type.
Variable userCollections : store -> list SteamCollection.t.
Variable perform : call -> store -> settled unit * store.

Lemma callFor_eq (platformName : string) (appIds : list Z) (st : store) :
  callFor userCollections platformName appIds st =
  match collectionOf (userCollections st) platformName with
  | Some existing => SetAppsInCollection (id existing) appIds
  | None => CreateCollection ("RomM: " ++ platformName) appIds
  end.
Proof. reflexivity. Qed.

Hypothesis Hwrites : writesApps userCollections perform.
Hypothesis Happends : appendsCollection userCollections perform.

(** One platform whose call returned. *)
Lemma platform_step (name : string) (apps : list Z) (st st1 : store) (u : unit) :
  perform (callFor userCollections name apps st) st = (Fulfilled u, st1) ->
  let cs := userCollections st in
  let cs1 := userCollections st1 in
  (exists c, collectionOf cs1 name = Some c /\ visibleApps c = apps) /\
  (forall n', collectionOf cs n' <> None -> collectionOf cs1 n' <> None) /\
  (NoDup (map id cs) ->
   NoDup (map id cs1) /\
   (forall n' c', n' <> name -> collectionOf cs n' = Some c' ->
                  collectionOf cs1 n' = Some c') /\
   (forall x, In x cs -> isRomM x = false -> In x cs1)).
Proof.
  rewrite callFor_eq. cbn zeta.
  destruct (collectionOf (userCollections st) name) as [existing|] eqn:Ef;
    intros Hp.
  - rewrite (Hwrites _ _ _ _ _ Hp).
    destruct (collectionOf_Some _ _ _ Ef) as (Hin & Hname & Hromm).
    split; [|split].
    + exists (with_visibleApps existing apps).
      rewrite collectionOf_setApps, Ef. cbn. now rewrite String.eqb_refl.
    + intros n'. rewrite collectionOf_setApps.
      destruct (collectionOf (userCollections st) n'); cbn; congruence.
    + intros ND. split; [now rewrite setApps_ids|]. split.
      * intros n' c' Hne Ec'. rewrite collectionOf_setApps, Ec'. cbn.
        destruct (collectionOf_Some _ _ _ Ec') as (Hin' & Hname' & _).
        destruct (String.eqb_spec (id c') (id existing)) as [Eid|]; [|reflexivity].
        exfalso. apply Hne. apply RomM_name_inj.
        rewrite <- Hname', <- Hname. f_equal.
        eapply NoDup_map_injective; eauto.
      * intros x Hx Hr. apply setApps_other; [exact Hx|].
        intros Eid.
        assert (x = existing) by (eapply NoDup_map_injective; eauto).
        congruence.
  - destruct (Happends _ _ _ _ _ Hp) as (c & -> & Hname & Happs & Hfresh).
    split; [|split].
    + exists c. rewrite collectionOf_app, Ef, Hname, String.eqb_refl. auto.
    + intros n'. rewrite collectionOf_app.
      destruct (collectionOf (userCollections st) n'); congruence.
    + intros ND. split; [|split].
      * rewrite map_app. cbn. now apply NoDup_snoc.
      * intros n' c' _ Ec'. now rewrite collectionOf_app, Ec'.
      * intros x Hx _. apply in_or_app. now left.
Qed.

(** A run all of whose calls returned. *)
Lemma forEachPlatform_effect (entries : list (string * list Z)) (st : store) :
  Forall (fun e => returned e = true)
         (snd (forEachPlatform userCollections perform entries st)) ->
  let cs := userCollections st in
  let cs' := userCollections
               (fst (forEachPlatform userCollections perform entries st)) in
  (forall n', collectionOf cs n' <> None -> collectionOf cs' n' <> None) /\
  (forall name, In name (map fst entries) -> collectionOf cs' name <> None) /\
  (NoDup (map id cs) ->
   NoDup (map id cs') /\
   (forall x, In x cs -> isRomM x = false -> In x cs') /\
   (forall n' c', ~ In n' (map fst entries) -> collectionOf cs n' = Some c' ->
                  collectionOf cs' n' = Some c') /\
   (NoDup (map fst entries) ->
    forall name apps, In (name, apps) entries ->
      exists c, collectionOf cs' name = Some c /\ visibleApps c = apps)).
Proof.
  revert st. induction entries as [|[name apps] rest IH]; intros st; cbn zeta.
  - cbn. intros _. split; [auto|]. split; [intros ? []|].
    intros ND. split; [exact ND|]. split; [auto|]. split; [auto|].
    intros _ ? ? [].
  - cbn [forEachPlatform].
    destruct (perform (callFor userCollections name apps st) st) as [r st1] eqn:Ep.
    specialize (IH st1).
    destruct (forEachPlatform userCollections perform rest st1) as [st2 log] eqn:Er.
    cbn [fst snd] in *. intros Hall.
    inversion Hall as [|? ? Hret Hall']; subst. cbn in Hret.
    destruct r as [u|]; [|discriminate Hret].
    destruct (platform_step name apps st st1 u Ep) as (Hshow & Hpres & Hnd).
    destruct (IH Hall') as (IHpres & IHnames & IHnd).
    split; [|split].
    + intros n' Hn'. apply IHpres, Hpres, Hn'.
    + intros n' [<-|Hin]; cbn.
      * destruct Hshow as (c & Ec & _). apply IHpres. congruence.
      * now apply IHnames.
    + intros ND. destruct (Hnd ND) as (ND1 & Hother & Hframe).
      destruct (IHnd ND1) as (ND2 & IHframe & IHother & IHshow).
      split; [exact ND2|]. split; [|split].
      * intros x Hx Hr. apply IHframe; [now apply Hframe | exact Hr].
      * intros n' c' Hnot Ec'. cbn in Hnot.
        apply IHother; [intros Hin; apply Hnot; now right|].
        apply Hother; [intros ->; apply Hnot; now left | exact Ec'].
      * intros NDn n' apps' Hin. cbn in NDn.
        inversion NDn as [|? ? Hfresh NDrest]; subst.
        destruct Hin as [E|Hin].
        -- injection E as <- <-. destruct Hshow as (c & Ec & Happs).
           exists c. split; [|exact Happs]. now apply IHother.
        -- now apply IHshow.
Qed.

(** When every platform has its collection, every call is an update. *)
Lemma forEachPlatform_updates (entries : list (string * list Z)) (st : store) :
  (forall name, In name (map fst entries) ->
                collectionOf (userCollections st) name <> None) ->
  Forall (fun e => returned e = true)
         (snd (forEachPlatform userCollections perform entries st)) ->
  Forall (fun e => exists i apps, what e = SetAppsInCollection i apps)
         (snd (forEachPlatform userCollections perform entries st)).
Proof.
  revert st. induction entries as [|[name apps] rest IH]; intros st Hpresent.
  - cbn. constructor.
  - cbn [forEachPlatform].
    destruct (perform (callFor userCollections name apps st) st) as [r st1] eqn:Ep.
    specialize (IH st1).
    destruct (forEachPlatform userCollections perform rest st1) as [st2 log] eqn:Er.
    cbn [fst snd] in *. intros Hall.
    inversion Hall as [|? ? Hret Hall']; subst. cbn in Hret.
    destruct r as [u|]; [|discriminate Hret].
    destruct (platform_step name apps st st1 u Ep) as (_ & Hpres & _).
    constructor.
    + cbn. rewrite callFor_eq.
      destruct (collectionOf (userCollections st) name) as [existing|] eqn:Ef.
      * eauto.
      * exfalso. apply (Hpresent name); [now left | exact Ef].
    + apply IH; [|exact Hall'].
      intros n' Hin. apply Hpres. apply Hpresent. now right.
Qed.

End CollectionRuns.

Section ClearRuns.
Import SteamCollection Collections CollectionLaws.
Variable store : Type.
Variable userCollections : store -> list SteamCollection.t.
Variable perform : call -> store -> settled unit * store.
Hypothesis Hwrites : writesApps userCollections perform.

Lemma cleared_ids (cs : list SteamCollection.t) :
  map id (cleared cs) = map id cs.
Proof.
  unfold cleared. rewrite map_map. apply map_ext. intros c.
  destruct (isRomM c); reflexivity.
Qed.

Lemma cleared_twice (cs : list SteamCollection.t) :
  cleared (cleared cs) = cleared cs.
Proof.
  unfold cleared. rewrite map_map. apply map_ext. intros c.
  destruct (isRomM c) eqn:E; [|now rewrite E].
  unfold isRomM in *. cbn [displayName with_visibleApps]. now rewrite E.
Qed.

Lemma collectionOf_cleared (cs : list SteamCollection.t) (n : string) :
  collectionOf (cleared cs) n =
  option_map (fun c => if isRomM c then with_visibleApps c [] else c)
             (collectionOf cs n).
Proof.
  unfold collectionOf, cleared. generalize ("RomM: " ++ n)%string as name.
  intros name. induction cs as [|c cs IH]; cbn [map find]; [reflexivity|].
  assert (E : displayName (if isRomM c then with_visibleApps c [] else c)
              = displayName c) by (destruct (isRomM c); reflexivity).
  rewrite E. destruct (String.eqb (displayName c) name); [reflexivity | exact IH].
Qed.

(** A clearing run all of whose calls returned. *)
Lemma clearAll_effect (st : store) :
  NoDup (map id (userCollections st)) ->
  Forall (fun e => returned e = true)
         (snd (clearAllRomMCollections userCollections perform (Some st))) ->
  exists st',
    fst (clearAllRomMCollections userCollections perform (Some st)) = Some st' /\
    userCollections st' = cleared (userCollections st).
Proof.
  unfold clearAllRomMCollections. intros ND.
  pose proof (clearEach_effect store userCollections perform Hwrites
                (filter isRomM (userCollections st)) st) as Heff.
  destruct (clearEach perform (filter isRomM (userCollections st)) st)
    as [st' log] eqn:E.
  cbn in *. intros Hall. exists st'. split; [reflexivity|].
  rewrite (Heff Hall), setApps_each.
  unfold cleared. apply map_ext_in. intros c Hc. now rewrite romm_ids.
Qed.

End ClearRuns.

(** The guarded list store keeps both laws. *)
Lemma guardedPerform_writes :
  CollectionLaws.writesApps (fun cs => cs) MoreFixtures.guardedPerform.
Proof. intros i apps s s' u E. cbn in E. now injection E. Qed.

Lemma guardedPerform_appends :
  CollectionLaws.appendsCollection (fun cs => cs) MoreFixtures.guardedPerform.
Proof.
  intros name apps s s' u E. unfold MoreFixtures.guardedPerform in E.
  destruct (existsb (String.eqb ("uc-" ++ name)) (map SteamCollection.id s))
    eqn:Ex; [discriminate E|].
  cbn in E. injection E as _ <-.
  eexists. split; [reflexivity|]. cbn. repeat split.
  intros Hin.
  assert (existsb (String.eqb ("uc-" ++ name)) (map SteamCollection.id s) = true).
  { apply existsb_exists. eexists. split; [exact Hin | apply String.eqb_refl]. }
  congruence.
Qed.

(** X12.  With the collection store available, [clearPlatformCollection]
    does nothing when no collection is named "RomM: " followed by the
    platform name.  Otherwise it makes one call, [SetAppsInCollection]
    with the empty list on the id of the first collection so named; when
    that call returns, [SetAppsInCollection] writing the apps of the
    collection with the given id and ids being unique, that collection is
    emptied and every other collection is as it was. *)
Theorem clearPlatformCollection_clears_one_collection
  (store : Type) (userCollections : store -> list SteamCollection.t)
  (perform : Collections.call -> store -> settled unit * store)
  (st : store) (platformName : string) :
  let r := Collections.clearPlatformCollection userCollections perform
             (Some st) platformName in
  match CollectionLaws.collectionOf (userCollections st) platformName with
  | None => r = (Some st, [])
  | Some c =>
      In c (userCollections st) /\ Collections.isRomM c = true /\
      map Collections.what (snd r)
      = [Collections.SetAppsInCollection (SteamCollection.id c) []] /\
      (CollectionLaws.writesApps userCollections perform ->
       NoDup (map SteamCollection.id (userCollections st)) ->
       Forall (fun e => Collections.returned e = true) (snd r) ->
       exists st',
         fst r = Some st' /\
         Forall2 (fun x y =>
                    (x = c -> y = SteamCollection.with_visibleApps c []) /\
                    (x <> c -> y = x))
                 (userCollections st) (userCollections st'))
  end.
Proof.
  cbn zeta. unfold Collections.clearPlatformCollection.
  change (Collections.existingCollection userCollections
            ("RomM: " ++ platformName) st)
    with (CollectionLaws.collectionOf (userCollections st) platformName).
  destruct (CollectionLaws.collectionOf (userCollections st) platformName)
    as [c|] eqn:Ef; [|reflexivity].
  destruct (collectionOf_Some _ _ _ Ef) as (Hin & _ & Hromm).
  destruct (perform (Collections.SetAppsInCollection (SteamCollection.id c) []) st)
    as [r st'] eqn:Ep.
  cbn. split; [exact Hin|]. split; [exact Hromm|]. split; [reflexivity|].
  intros Hwrites ND Hall. inversion Hall as [|? ? Hret _]; subst. cbn in Hret.
  destruct r as [u|]; [|discriminate Hret].
  exists st'. split; [reflexivity|].
  rewrite (Hwrites _ _ _ _ _ Ep). unfold Collections.setApps.
  apply Forall2_map_In. intros x Hx.
  destruct (String.eqb_spec (SteamCollection.id x) (SteamCollection.id c)) as [E|N].
  - assert (x = c) by (eapply NoDup_map_injective; eauto). subst x.
    split; [reflexivity | intros H; contradiction].
  - split; [intros ->; contradiction | reflexivity].
Qed.

(** X12 at work: clearing "SNES" empties that collection and no other. *)
Lemma clearPlatformCollection_witness :
  exists st',
    fst (Collections.clearPlatformCollection (fun cs => cs)
           MoreFixtures.guardedPerform (Some Fixtures.library) "SNES")
    = Some st' /\
    map SteamCollection.visibleApps st' = [[10; 20]; []; [101]; [201]].
Proof.
  pose proof (clearPlatformCollection_clears_one_collection
                Fixtures.listStore (fun cs => cs) MoreFixtures.guardedPerform
                Fixtures.library "SNES"%string) as H.
  cbn zeta in H.
  cbn in H. destruct H as (_ & _ & _ & H).
  destruct H as (st' & E & _).
  - exact guardedPerform_writes.
  - repeat constructor; cbn; intuition discriminate.
  - repeat constructor.
  - exists st'. split; [exact E|]. injection E as <-. reflexivity.
Defined.

(** X13.  With the collection store available and whatever its mutators
    do, [createOrUpdateCollections] writes to no collection of the user's
    own: every collection it creates has a name that starts with
    "RomM: ", and every [SetAppsInCollection] it makes is on the id of a
    collection that is in the store at that moment and whose name starts
    with "RomM: ". *)
Theorem createOrUpdateCollections_touches_prefixed_only
  (store : Type) (userCollections : store -> list SteamCollection.t)
  (perform : Collections.call -> store -> settled unit * store)
  (st : store) (platformAppIds : list (string * list Z))
  (n : nat) (e : Collections.logged) :
  nth_error (snd (Collections.createOrUpdateCollections userCollections perform
                    (Some st) platformAppIds)) n = Some e ->
  let before := fst (Collections.forEachPlatform userCollections perform
                       (firstn n platformAppIds) st) in
  match Collections.what e with
  | Collections.CreateCollection name _ => String.prefix "RomM: " name = true
  | Collections.SetAppsInCollection i _ =>
      exists c, In c (userCollections before) /\ SteamCollection.id c = i /\
                Collections.isRomM c = true
  end.
Proof.
  unfold Collections.createOrUpdateCollections.
  pose proof (forEachPlatform_length store userCollections perform platformAppIds st)
    as Hlen.
  pose proof (forEachPlatform_nth store userCollections perform platformAppIds st n)
    as Hnth.
  destruct (Collections.forEachPlatform userCollections perform platformAppIds st)
    as [st' log].
  cbn [fst snd] in *. intros He. cbn zeta.
  destruct (nth_error platformAppIds n) as [[name apps]|] eqn:En.
  - specialize (Hnth name apps eq_refl).
    rewrite (map_nth_error _ _ _ He) in Hnth. injection Hnth as ->.
    rewrite callFor_eq.
    destruct (CollectionLaws.collectionOf _ name) as [c|] eqn:Ef.
    + destruct (collectionOf_Some _ _ _ Ef) as (Hin & _ & Hr). eauto.
    + apply prefix_RomM.
  - exfalso. apply nth_error_None in En.
    assert (nth_error log n <> None) by congruence.
    apply nth_error_Some in H. lia.
Qed.

(** X13 at work: the update made for "SNES" is on a collection of the
    library whose name has the prefix. *)
Lemma createOrUpdateCollections_touches_witness :
  exists c, In c Fixtures.library /\ SteamCollection.id c = "uc-snes"%string /\
            Collections.isRomM c = true.
Proof.
  exact (createOrUpdateCollections_touches_prefixed_only
           Fixtures.listStore (fun cs => cs) Fixtures.brokenPerform
           Fixtures.library Fixtures.platformAppIds 0%nat
           {| Collections.what :=
                Collections.SetAppsInCollection "uc-snes" [101; 102];
              Collections.returned := false |} eq_refl).
Defined.

(** X14.  [SetAppsInCollection] writing the apps of the collection with
    the given id, [CreateCollection] adding a collection with the given
    name and apps under an unused id, ids being unique and no call
    throwing: after [createOrUpdateCollections] every platform of the
    input, its names being distinct, has a collection named "RomM: "
    followed by its name that shows exactly its app ids; ids are still
    unique; and every collection whose name does not start with "RomM: "
    is still there unchanged. *)
Theorem createOrUpdateCollections_installs_platforms
  (store : Type) (userCollections : store -> list SteamCollection.t)
  (perform : Collections.call -> store -> settled unit * store)
  (st : store) (platformAppIds : list (string * list Z)) :
  CollectionLaws.writesApps userCollections perform ->
  CollectionLaws.appendsCollection userCollections perform ->
  NoDup (map SteamCollection.id (userCollections st)) ->
  NoDup (map fst platformAppIds) ->
  let r := Collections.createOrUpdateCollections userCollections perform
             (Some st) platformAppIds in
  Forall (fun e => Collections.returned e = true) (snd r) ->
  exists st',
    fst r = Some st' /\
    NoDup (map SteamCollection.id (userCollections st')) /\
    (forall name apps, In (name, apps) platformAppIds ->
       exists c, CollectionLaws.collectionOf (userCollections st') name = Some c /\
                 SteamCollection.visibleApps c = apps) /\
    (forall x, In x (userCollections st) -> Collections.isRomM x = false ->
               In x (userCollections st')).
Proof.
  intros Hwrites Happends ND NDn. cbn zeta.
  unfold Collections.createOrUpdateCollections.
  pose proof (forEachPlatform_effect store userCollections perform
                Hwrites Happends platformAppIds st) as Heff.
  destruct (Collections.forEachPlatform userCollections perform platformAppIds st)
    as [st' log].
  cbn [fst snd] in *. intros Hall.
  destruct (Heff Hall) as (_ & _ & H).
  destruct (H ND) as (ND' & Hframe & _ & Hshow).
  exists st'. repeat split; auto.
Qed.

(** X14 at work on the guarded list store: SNES and Game Boy are
    rewritten, N64 is created, the two other collections are kept. *)
Lemma createOrUpdateCollections_installs_witness :
  exists st',
    fst (Collections.createOrUpdateCollections (fun cs => cs)
           MoreFixtures.guardedPerform (Some Fixtures.library)
           Fixtures.platformAppIds) = Some st' /\
    (exists c, CollectionLaws.collectionOf st' "N64" = Some c /\
               SteamCollection.visibleApps c = [301]) /\
    map SteamCollection.visibleApps st' = [[10; 20]; [101; 102]; [101]; []; [301]].
Proof.
  destruct (createOrUpdateCollections_installs_platforms
              Fixtures.listStore (fun cs => cs) MoreFixtures.guardedPerform
              Fixtures.library Fixtures.platformAppIds
              guardedPerform_writes guardedPerform_appends)
    as (st' & E & _ & Hshow & _).
  - repeat constructor; cbn; intuition discriminate.
  - repeat constructor; cbn; intuition discriminate.
  - repeat constructor.
  - exists st'. split; [exact E|]. split.
    + apply Hshow. right. left. reflexivity.
    + injection E as <-. reflexivity.
Defined.

(** X15.  Under the same reading of the two mutators, a run of
    [createOrUpdateCollections] that follows an earlier run and names no
    platform the earlier run did not name creates nothing: each of its
    calls is a [SetAppsInCollection], one for each platform. *)
Theorem createOrUpdateCollections_again_only_updates
  (store : Type) (userCollections : store -> list SteamCollection.t)
  (perform : Collections.call -> store -> settled unit * store)
  (st : store) (first second : list (string * list Z)) :
  CollectionLaws.writesApps userCollections perform ->
  CollectionLaws.appendsCollection userCollections perform ->
  incl (map fst second) (map fst first) ->
  let r1 := Collections.createOrUpdateCollections userCollections perform
              (Some st) first in
  let r2 := Collections.createOrUpdateCollections userCollections perform
              (fst r1) second in
  Forall (fun e => Collections.returned e = true) (snd r1) ->
  Forall (fun e => Collections.returned e = true) (snd r2) ->
  Forall (fun e => exists i apps,
              Collections.what e = Collections.SetAppsInCollection i apps)
         (snd r2) /\
  List.length (snd r2) = List.length second.
Proof.
  intros Hwrites Happends Hincl. cbn zeta.
  unfold Collections.createOrUpdateCollections.
  pose proof (forEachPlatform_effect store userCollections perform
                Hwrites Happends first st) as Heff.
  destruct (Collections.forEachPlatform userCollections perform first st)
    as [st1 log1].
  cbn [fst snd] in *. intros Hall1.
  destruct (Heff Hall1) as (_ & Hnames & _).
  pose proof (forEachPlatform_updates store userCollections perform
                Hwrites Happends second st1) as Hupd.
  pose proof (forEachPlatform_length store userCollections perform second st1)
    as Hlen.
  destruct (Collections.forEachPlatform userCollections perform second st1)
    as [st2 log2].
  cbn [fst snd] in *. intros Hall2. split; [|exact Hlen].
  apply Hupd; [|exact Hall2].
  intros name Hin. apply Hnames. now apply Hincl.
Qed.

Lemma createOrUpdateCollections_again_witness :
  let r1 := Collections.createOrUpdateCollections (fun cs => cs)
              MoreFixtures.guardedPerform (Some Fixtures.library)
              Fixtures.platformAppIds in
  let r2 := Collections.createOrUpdateCollections (fun cs => cs)
              MoreFixtures.guardedPerform (fst r1)
              [("N64"%string, [301; 302])] in
  Forall (fun e => exists i apps,
              Collections.what e = Collections.SetAppsInCollection i apps)
         (snd r2) /\
  List.length (snd r2) = 1%nat.
Proof.
  apply (createOrUpdateCollections_again_only_updates
           Fixtures.listStore (fun cs => cs) MoreFixtures.guardedPerform
           Fixtures.library Fixtures.platformAppIds
           [("N64"%string, [301; 302])]
           guardedPerform_writes guardedPerform_appends).
  - intros x [<-|[]]. right. left. reflexivity.
  - repeat constructor.
  - repeat constructor.
Defined.

(** X16.  Synchronising the platforms in two batches is the same as
    synchronising them at once: the store left and the calls made by
    [createOrUpdateCollections] on an input in two parts are those of a
    run on the first part followed by a run on the second, with or
    without a collection store and whatever its mutators do. *)
Theorem createOrUpdateCollections_in_batches
  (store : Type) (userCollections : store -> list SteamCollection.t)
  (perform : Collections.call -> store -> settled unit * store)
  (collectionStore : option store) (first second : list (string * list Z)) :
  let r1 := Collections.createOrUpdateCollections userCollections perform
              collectionStore first in
  let r2 := Collections.createOrUpdateCollections userCollections perform
              (fst r1) second in
  Collections.createOrUpdateCollections userCollections perform
    collectionStore (first ++ second)
  = (fst r2, snd r1 ++ snd r2).
Proof.
  cbn zeta. destruct collectionStore as [st|]; [|reflexivity].
  unfold Collections.createOrUpdateCollections.
  revert st. induction first as [|[name apps] rest IH]; intros st.
  - cbn.
    destruct (Collections.forEachPlatform userCollections perform second st);
      reflexivity.
  - cbn [app Collections.forEachPlatform].
    destruct (perform _ st) as [r st1]. specialize (IH st1).
    destruct (Collections.forEachPlatform userCollections perform
                (rest ++ second) st1) as [st3 log3].
    destruct (Collections.forEachPlatform userCollections perform rest st1)
      as [st2 log2].
    cbn [fst snd] in *.
    destruct (Collections.forEachPlatform userCollections perform second st2)
      as [st4 log4].
    cbn [fst snd] in *. injection IH as -> ->. reflexivity.
Qed.

(** X17.  Under the same reading of [SetAppsInCollection], with unique
    ids and no call throwing, clearing twice is clearing once: a second
    [clearAllRomMCollections] leaves every collection as the first left
    it. *)
Theorem clearAllRomMCollections_twice
  (store : Type) (userCollections : store -> list SteamCollection.t)
  (perform : Collections.call -> store -> settled unit * store)
  (st : store) :
  CollectionLaws.writesApps userCollections perform ->
  NoDup (map SteamCollection.id (userCollections st)) ->
  let r1 := Collections.clearAllRomMCollections userCollections perform (Some st) in
  let r2 := Collections.clearAllRomMCollections userCollections perform (fst r1) in
  Forall (fun e => Collections.returned e = true) (snd r1) ->
  Forall (fun e => Collections.returned e = true) (snd r2) ->
  exists st1 st2,
    fst r1 = Some st1 /\ fst r2 = Some st2 /\
    userCollections st2 = userCollections st1.
Proof.
  intros Hwrites ND. cbn zeta. intros Hall1.
  destruct (clearAll_effect store userCollections perform Hwrites st ND Hall1)
    as (st1 & E1 & Hc1).
  rewrite E1. intros Hall2.
  assert (ND1 : NoDup (map SteamCollection.id (userCollections st1)))
    by (rewrite Hc1, cleared_ids; exact ND).
  destruct (clearAll_effect store userCollections perform Hwrites st1 ND1 Hall2)
    as (st2 & E2 & Hc2).
  exists st1, st2. split; [reflexivity|]. split; [exact E2|].
  now rewrite Hc2, Hc1, cleared_twice.
Qed.

Lemma clearAllRomMCollections_twice_witness :
  let r1 := Collections.clearAllRomMCollections (fun cs => cs)
              MoreFixtures.guardedPerform (Some Fixtures.library) in
  let r2 := Collections.clearAllRomMCollections (fun cs => cs)
              MoreFixtures.guardedPerform (fst r1) in
  exists st1 st2, fst r1 = Some st1 /\ fst r2 = Some st2 /\ st2 = st1.
Proof.
  apply (clearAllRomMCollections_twice Fixtures.listStore (fun cs => cs)
           MoreFixtures.guardedPerform Fixtures.library guardedPerform_writes).
  - repeat constructor; cbn; intuition discriminate.
  - repeat constructor.
  - repeat constructor.
Defined.

(** X18.  Under the same reading of the two mutators, with unique ids and
    no call throwing: after [createOrUpdateCollections] followed by
    [clearAllRomMCollections], every platform of the input still has its
    collection, and it is empty. *)
Theorem clear_after_sync_empties_every_platform
  (store : Type) (userCollections : store -> list SteamCollection.t)
  (perform : Collections.call -> store -> settled unit * store)
  (st : store) (platformAppIds : list (string * list Z)) :
  CollectionLaws.writesApps userCollections perform ->
  CollectionLaws.appendsCollection userCollections perform ->
  NoDup (map SteamCollection.id (userCollections st)) ->
  let r1 := Collections.createOrUpdateCollections userCollections perform
              (Some st) platformAppIds in
  let r2 := Collections.clearAllRomMCollections userCollections perform (fst r1) in
  Forall (fun e => Collections.returned e = true) (snd r1) ->
  Forall (fun e => Collections.returned e = true) (snd r2) ->
  exists st2,
    fst r2 = Some st2 /\
    forall name, In name (map fst platformAppIds) ->
      exists c, CollectionLaws.collectionOf (userCollections st2) name = Some c /\
                SteamCollection.visibleApps c = [].
Proof.
  intros Hwrites Happends ND. cbn zeta.
  unfold Collections.createOrUpdateCollections.
  pose proof (forEachPlatform_effect store userCollections perform
                Hwrites Happends platformAppIds st) as Heff.
  destruct (Collections.forEachPlatform userCollections perform platformAppIds st)
    as [st1 log1].
  cbn [fst snd] in *. intros Hall1.
  destruct (Heff Hall1) as (_ & Hnames & Hnd).
  destruct (Hnd ND) as (ND1 & _). intros Hall2.
  destruct (clearAll_effect store userCollections perform Hwrites st1 ND1 Hall2)
    as (st2 & E2 & Hc2).
  exists st2. split; [exact E2|].
  intros name Hin. rewrite Hc2, collectionOf_cleared.
  destruct (CollectionLaws.collectionOf (userCollections st1) name) as [c|] eqn:Ec.
  - destruct (collectionOf_Some _ _ _ Ec) as (_ & _ & Hr).
    cbn. rewrite Hr. eexists. split; reflexivity.
  - exfalso. exact (Hnames name Hin Ec).
Qed.

Lemma clear_after_sync_witness :
  let r1 := Collections.createOrUpdateCollections (fun cs => cs)
              MoreFixtures.guardedPerform (Some Fixtures.library)
              Fixtures.platformAppIds in
  let r2 := Collections.clearAllRomMCollections (fun cs => cs)
              MoreFixtures.guardedPerform (fst r1) in
  exists st2,
    fst r2 = Some st2 /\
    forall name, In name ["SNES"; "N64"; "Game Boy"]%string ->
      exists c, CollectionLaws.collectionOf st2 name = Some c /\
                SteamCollection.visibleApps c = [].
Proof.
  apply (clear_after_sync_empties_every_platform Fixtures.listStore
           (fun cs => cs) MoreFixtures.guardedPerform Fixtures.library
           Fixtures.platformAppIds guardedPerform_writes guardedPerform_appends).
  - repeat constructor; cbn; intuition discriminate.
  - repeat constructor.
  - repeat constructor.
Defined.
